(** * A shallow embedding of the project board (app.ts)

    The development follows the source top-down: JavaScript strings and
    numbers as far as the program uses them, the [validate] function, the
    [Project] objects and the observable [ProjectState] store, and the three
    views ([ProjectInput], [ProjectList], [ProjectItem]).

    Objects that the program shares by reference ([Project] instances and
    [Project[]] arrays) live in two heaps, so that aliasing between the store,
    the snapshots handed to listeners and the views is visible. *)

From Stdlib Require Import ZArith Lia Ascii String Decimal DecimalPos.
From stdpp Require Import base option list.

Local Open Scope Z_scope.

(** ** JavaScript strings

    A string is a sequence of UTF-16 code units; [s.length] is the number of
    code units. *)

Definition char16 := N.
Definition jsstring := list char16.

(** String literals of the source (all of them ASCII). *)
Definition str (s : string) : jsstring :=
  map N_of_ascii (list_ascii_of_string s).

Definition char16_eqb (a b : char16) : bool := N.eqb a b.

(** [a === b] on strings. *)
Fixpoint jsstring_eqb (a b : jsstring) : bool :=
  match a, b with
  | [], [] => true
  | x :: a', y :: b' => char16_eqb x y && jsstring_eqb a' b'
  | _, _ => false
  end.

(** WhiteSpace and LineTerminator code units, the ones
    [String.prototype.trim] strips. *)
Definition isWhiteSpace (c : char16) : bool :=
  ((9 <=? c) && (c <=? 13) || (c =? 32) || (c =? 160) || (c =? 5760)
   || (8192 <=? c) && (c <=? 8202) || (c =? 8232) || (c =? 8233)
   || (c =? 8239) || (c =? 8287) || (c =? 12288) || (c =? 65279))%N.

Fixpoint trimStart (s : jsstring) : jsstring :=
  match s with
  | [] => []
  | c :: rest => if isWhiteSpace c then trimStart rest else s
  end.

Definition trimEnd (s : jsstring) : jsstring := rev (trimStart (rev s)).

Definition trim (s : jsstring) : jsstring := trimEnd (trimStart s).

(** ** JavaScript numbers

    A finite number is kept as a decimal [m * 10 ^ e].  Every IEEE double is
    such a decimal, and the program only compares numbers and prints them, so
    nothing here depends on rounding.  [-0] is not distinguished from [0]:
    the two compare equal and print alike. *)

Inductive number : Type :=
| NaN
| PosInfinity
| NegInfinity
| Finite (m e : Z).

Definition ofZ (z : Z) : number := Finite z 0.
Definition ofNat (n : nat) : number := ofZ (Z.of_nat n).

Definition scale (m e e0 : Z) : Z := m * 10 ^ (e - e0).

Definition Finite_compare (m1 e1 m2 e2 : Z) : comparison :=
  let e0 := Z.min e1 e2 in
  Z.compare (scale m1 e1 e0) (scale m2 e2 e0).

(** [x < y]: false as soon as one side is NaN. *)
Definition num_lt (x y : number) : bool :=
  match x, y with
  | NaN, _ | _, NaN => false
  | PosInfinity, _ => false
  | _, NegInfinity => false
  | NegInfinity, _ => true
  | _, PosInfinity => true
  | Finite m1 e1, Finite m2 e2 =>
      match Finite_compare m1 e1 m2 e2 with Lt => true | _ => false end
  end.

(** [x > y]. *)
Definition num_gt (x y : number) : bool := num_lt y x.

(** [x === y] on numbers. *)
Definition num_strict_eq (x y : number) : bool :=
  match x, y with
  | PosInfinity, PosInfinity => true
  | NegInfinity, NegInfinity => true
  | Finite m1 e1, Finite m2 e2 =>
      match Finite_compare m1 e1 m2 e2 with Eq => true | _ => false end
  | _, _ => false
  end.

(** *** Number.prototype.toString (radix 10) *)

Fixpoint uint_chars (d : Decimal.uint) : jsstring :=
  match d with
  | Nil => []
  | D0 d' => 48%N :: uint_chars d'
  | D1 d' => 49%N :: uint_chars d'
  | D2 d' => 50%N :: uint_chars d'
  | D3 d' => 51%N :: uint_chars d'
  | D4 d' => 52%N :: uint_chars d'
  | D5 d' => 53%N :: uint_chars d'
  | D6 d' => 54%N :: uint_chars d'
  | D7 d' => 55%N :: uint_chars d'
  | D8 d' => 56%N :: uint_chars d'
  | D9 d' => 57%N :: uint_chars d'
  end.

(** The decimal digits of a positive integer, most significant first. *)
Definition digits (p : positive) : jsstring := uint_chars (Pos.to_uint p).

(** The decimal digits of a natural number, ["0"] for zero. *)
Definition digitsN (n : N) : jsstring :=
  match n with
  | N0 => [48%N]
  | Npos p => digits p
  end.

Fixpoint dropZeros (s : jsstring) : jsstring :=
  match s with
  | [] => []
  | c :: rest => if (c =? 48)%N then dropZeros rest else s
  end.

(** The digit string [s] of the standard: as short as possible, so without
    trailing zeros. *)
Definition stripTrailingZeros (s : jsstring) : jsstring :=
  rev (dropZeros (rev s)).

Definition zeros (n : nat) : jsstring := replicate n 48%N.

(** ["e"], the sign of [n - 1] and the digits of its absolute value. *)
Definition exponentPart (n : Z) : jsstring :=
  let x := n - 1 in
  101%N :: (if x <? 0 then 45%N else 43%N) :: digitsN (Z.to_N (Z.abs x)).

(** The number is [0.d1...dk * 10 ^ n] where [ds] holds the [k] digits. *)
Definition formatDigits (ds : jsstring) (n : Z) : jsstring :=
  let k := Z.of_nat (length ds) in
  if (k <=? n) && (n <=? 21) then
    ds ++ zeros (Z.to_nat (n - k))
  else if (0 <? n) && (n <=? 21) then
    take (Z.to_nat n) ds ++ 46%N :: drop (Z.to_nat n) ds
  else if (-6 <? n) && (n <=? 0) then
    48%N :: 46%N :: zeros (Z.to_nat (- n)) ++ ds
  else
    match ds with
    | [] => []
    | [d] => d :: exponentPart n
    | d :: rest => d :: 46%N :: rest ++ exponentPart n
    end.

Definition formatPositive (p : positive) (e : Z) : jsstring :=
  let ds := digits p in
  formatDigits (stripTrailingZeros ds) (e + Z.of_nat (length ds)).

Definition Number_toString (x : number) : jsstring :=
  match x with
  | NaN => str "NaN"
  | PosInfinity => str "Infinity"
  | NegInfinity => str "-Infinity"
  | Finite Z0 _ => str "0"
  | Finite (Zpos p) e => formatPositive p e
  | Finite (Zneg p) e => 45%N :: formatPositive p e
  end.

(** ** Validation *)

(** [value: string | number]. *)
Inductive StringOrNumber : Type :=
| VString (s : jsstring)
| VNumber (n : number).

(** [value.toString()]. *)
Definition toString (v : StringOrNumber) : jsstring :=
  match v with
  | VString s => s
  | VNumber n => Number_toString n
  end.

(** The [Validatable] interface; an optional member that is absent is
    [None]. *)
Module Validatable.
Record t : Type := mk {
  value : StringOrNumber;
  required : option bool;
  minLength : option number;
  maxLength : option number;
  min : option number;
  max : option number
}.
End Validatable.

(** The condition [if (x.required)] on an optional boolean. *)
Definition truthy (b : option bool) : bool :=
  match b with
  | Some true => true
  | _ => false
  end.

(** [validate]: the five [if] statements of the source in sequence, each one
    updating [isValid]. *)
Definition validate (validateableInput : Validatable.t) : bool :=
  let isValid := true in
  let isValid :=
    if truthy (Validatable.required validateableInput) then
      isValid &&
      negb (Nat.eqb (length (trim (toString (Validatable.value validateableInput)))) 0)
    else isValid in
  let isValid :=
    match Validatable.minLength validateableInput,
          Validatable.value validateableInput with
    | Some bound, VString s => isValid && num_gt (ofNat (length s)) bound
    | _, _ => isValid
    end in
  let isValid :=
    match Validatable.maxLength validateableInput,
          Validatable.value validateableInput with
    | Some bound, VString s => isValid && num_lt (ofNat (length s)) bound
    | _, _ => isValid
    end in
  let isValid :=
    match Validatable.min validateableInput,
          Validatable.value validateableInput with
    | Some bound, VNumber n => isValid && num_gt n bound
    | _, _ => isValid
    end in
  let isValid :=
    match Validatable.max validateableInput,
          Validatable.value validateableInput with
    | Some bound, VNumber n => isValid && num_lt n bound
    | _, _ => isValid
    end in
  isValid.

(** The three constraint objects built in [ProjectInput.gatherUserInput]. *)
Definition titleValidatable (enteredTitle : jsstring) : Validatable.t :=
  Validatable.mk (VString enteredTitle) (Some true) None None None None.

Definition descriptionValidatable (enteredDescription : jsstring) : Validatable.t :=
  Validatable.mk (VString enteredDescription) (Some true)
    (Some (ofZ 5)) None None None.

Definition peopleValidatable (people : number) : Validatable.t :=
  Validatable.mk (VNumber people) (Some true) None None
    (Some (ofZ 1)) (Some (ofZ 5)).

(** ** Projects and the heaps *)

Inductive ProjectStatus : Type :=
| Active
| Finished.

Definition ProjectStatus_eqb (a b : ProjectStatus) : bool :=
  match a, b with
  | Active, Active | Finished, Finished => true
  | _, _ => false
  end.

Module Project.
Record t : Type := mk {
  id : jsstring;
  title : jsstring;
  description : jsstring;
  people : number;
  status : ProjectStatus
}.

(** [project.status = newStatus]. *)
Definition set_status (prj : t) (newStatus : ProjectStatus) : t :=
  mk (id prj) (title prj) (description prj) (people prj) newStatus.
End Project.

(** A reference to an object: its index in the heap it lives in. *)
Abbreviation addr := nat (only parsing).

(** The string literal type ["active" | "finished"] of [ProjectList.type];
    the program makes one list of each type ([activePrjList],
    [finishedPrjList]). *)
Inductive ListType : Type :=
| active
| finished.

(** The only function ever passed to [addListener] is the arrow function of
    [ProjectList.configure]; as a closure it is determined by the list it
    captured as [this]. *)
Inductive Listener : Type :=
| ListListener (this : ListType).

(** The calls that are recorded, in the order they happen: [alert(message)]
    and a call of a listener with the array it is handed. *)
Inductive Event : Type :=
| Alert (message : jsstring)
| Notified (listenerFn : Listener) (items : addr).

(** A rendered [ProjectItem]: the project it holds and the text of the
    [h2], [h3] and [p] elements of its [li]. *)
Record ProjectItem : Type := mkItem {
  project : addr;
  h2 : jsstring;
  h3 : jsstring;
  p : jsstring
}.

(** A [ProjectList]: its [assignedProjects] array and the children of its
    [ul] element. *)
Record ProjectList : Type := mkList {
  assignedProjects : addr;
  listEl : list ProjectItem
}.

(** The [value] of the three input elements of [ProjectInput]. *)
Record ProjectInput : Type := mkInput {
  titleInputElement : jsstring;
  descriptionInputElement : jsstring;
  peopleInputElement : jsstring
}.

(** The whole program state.  [projects] and [listeners] are the fields of the
    [ProjectState] singleton; [projects] is a reference into [arrayHeap],
    because the store mutates that array in place. *)
Record World : Type := mkWorld {
  projectHeap : list Project.t;
  arrayHeap : list (list addr);
  projects : addr;
  listeners : list Listener;
  prjInput : ProjectInput;
  activePrjList : ProjectList;
  finishedPrjList : ProjectList;
  log : list Event
}.

Definition set_projectHeap (h : list Project.t) (w : World) : World :=
  mkWorld h (arrayHeap w) (projects w) (listeners w) (prjInput w)
    (activePrjList w) (finishedPrjList w) (log w).

Definition set_arrayHeap (h : list (list addr)) (w : World) : World :=
  mkWorld (projectHeap w) h (projects w) (listeners w) (prjInput w)
    (activePrjList w) (finishedPrjList w) (log w).

Definition set_listeners (ls : list Listener) (w : World) : World :=
  mkWorld (projectHeap w) (arrayHeap w) (projects w) ls (prjInput w)
    (activePrjList w) (finishedPrjList w) (log w).

Definition set_prjInput (i : ProjectInput) (w : World) : World :=
  mkWorld (projectHeap w) (arrayHeap w) (projects w) (listeners w) i
    (activePrjList w) (finishedPrjList w) (log w).

Definition emit (e : Event) (w : World) : World :=
  mkWorld (projectHeap w) (arrayHeap w) (projects w) (listeners w) (prjInput w)
    (activePrjList w) (finishedPrjList w) (log w ++ [e]).

Definition prjList (this : ListType) (w : World) : ProjectList :=
  match this with
  | active => activePrjList w
  | finished => finishedPrjList w
  end.

Definition set_prjList (this : ListType) (l : ProjectList) (w : World) : World :=
  match this with
  | active =>
      mkWorld (projectHeap w) (arrayHeap w) (projects w) (listeners w)
        (prjInput w) l (finishedPrjList w) (log w)
  | finished =>
      mkWorld (projectHeap w) (arrayHeap w) (projects w) (listeners w)
        (prjInput w) (activePrjList w) l (log w)
  end.

(** [new Project(...)]: the object gets the next free address. *)
Definition allocProject (prj : Project.t) (w : World) : addr * World :=
  (length (projectHeap w), set_projectHeap (projectHeap w ++ [prj]) w).

(** A new array object ([[]], [slice()], [filter(...)]). *)
Definition allocArray (items : list addr) (w : World) : addr * World :=
  (length (arrayHeap w), set_arrayHeap (arrayHeap w ++ [items]) w).

(** [arr.push(x)], in place. *)
Definition push (arr : addr) (x : addr) (w : World) : option World :=
  items ← arrayHeap w !! arr;
  Some (set_arrayHeap (<[arr := items ++ [x]]> (arrayHeap w)) w).

(** The objects behind a sequence of references. *)
Definition readAll (heap : list Project.t) (items : list addr)
  : option (list Project.t) :=
  mapM (fun a => heap !! a) items.

(** The projects an array holds, read through the heap. *)
Definition readProjects (w : World) (arr : addr) : option (list Project.t) :=
  items ← arrayHeap w !! arr;
  readAll (projectHeap w) items.

(** ** ProjectItem *)

(** The getter [persons]. *)
Definition persons (prj : Project.t) : jsstring :=
  if num_strict_eq (Project.people prj) (ofZ 1) then str "1 person"
  else Number_toString (Project.people prj) ++ str " persons".

(** [new ProjectItem(hostId, project)]: the constructor ends with
    [renderContent], which fills the three texts. *)
Definition new_ProjectItem (heap : list Project.t) (prjItem : addr)
  : option ProjectItem :=
  prj ← heap !! prjItem;
  Some (mkItem prjItem (Project.title prj)
          (persons prj ++ str " assigned") (Project.description prj)).

(** ** ProjectList *)

(** The predicate of the [filter] call in the listener. *)
Definition relevant (this : ListType) (prj : Project.t) : bool :=
  match this with
  | active => ProjectStatus_eqb (Project.status prj) Active
  | finished => ProjectStatus_eqb (Project.status prj) Finished
  end.

(** [projects.filter(...)] over an array of references. *)
Fixpoint filterProjects (heap : list Project.t) (this : ListType)
    (items : list addr) : option (list addr) :=
  match items with
  | [] => Some []
  | a :: rest =>
      prj ← heap !! a;
      kept ← filterProjects heap this rest;
      Some (if relevant this prj then a :: kept else kept)
  end.

(** The [for] loop of [renderProjects]: every new item is attached at the end
    of the [ul]. *)
Fixpoint renderLoop (heap : list Project.t) (items : list addr)
    (children : list ProjectItem) : option (list ProjectItem) :=
  match items with
  | [] => Some children
  | prjItem :: rest =>
      item ← new_ProjectItem heap prjItem;
      renderLoop heap rest (children ++ [item])
  end.

(** [renderProjects]: [innerHTML = ""] empties the [ul] first. *)
Definition renderProjects (this : ListType) (w : World) : option World :=
  items ← arrayHeap w !! assignedProjects (prjList this w);
  children ← renderLoop (projectHeap w) items [];
  Some (set_prjList this (mkList (assignedProjects (prjList this w)) children) w).

(** A call of a listener with the array [items]. *)
Definition callListener (listenerFn : Listener) (items : addr) (w : World)
  : option World :=
  match listenerFn with
  | ListListener this =>
      projects ← arrayHeap w !! items;
      relevantProjects ← filterProjects (projectHeap w) this projects;
      let '(arr, w1) := allocArray relevantProjects w in
      renderProjects this (set_prjList this (mkList arr (listEl (prjList this w1))) w1)
  end.

(** ** ProjectState *)

Definition addListener (listenerFn : Listener) (w : World) : World :=
  set_listeners (listeners w ++ [listenerFn]) w.

(** The loop of [updateListeners] over the listeners still to call. *)
Fixpoint notify (ls : list Listener) (w : World) : option World :=
  match ls with
  | [] => Some w
  | listenerFn :: rest =>
      items ← arrayHeap w !! projects w;
      let '(snapshot, w1) := allocArray items w in
      w2 ← callListener listenerFn snapshot (emit (Notified listenerFn snapshot) w1);
      notify rest w2
  end.

Definition updateListeners (w : World) : option World :=
  notify (listeners w) w.

(** [addProject]; [random] is the value that [Math.random()] returns. *)
Definition addProject (random : number) (title description : jsstring)
    (numOfPeople : number) (w : World) : option World :=
  let newProject :=
    Project.mk (Number_toString random) title description numOfPeople Active in
  let '(a, w1) := allocProject newProject w in
  w2 ← push (projects w1) a w1;
  updateListeners w2.

(** [this.projects.find((prj) => prj.id === projectId)]: [Some None] is
    [undefined]. *)
Fixpoint find (heap : list Project.t) (projectId : jsstring)
    (items : list addr) : option (option addr) :=
  match items with
  | [] => Some None
  | a :: rest =>
      prj ← heap !! a;
      if jsstring_eqb (Project.id prj) projectId then Some (Some a)
      else find heap projectId rest
  end.

Definition moveProject (projectId : jsstring) (newStatus : ProjectStatus)
    (w : World) : option World :=
  items ← arrayHeap w !! projects w;
  found ← find (projectHeap w) projectId items;
  match found with
  | Some a =>
      prj ← projectHeap w !! a;
      if negb (ProjectStatus_eqb (Project.status prj) newStatus) then
        updateListeners
          (set_projectHeap (<[a := Project.set_status prj newStatus]> (projectHeap w)) w)
      else Some w
  | None => Some w
  end.

(** The status a list stands for:
    [this.type === "active" ? ProjectStatus.Active : ProjectStatus.Finished]. *)
Definition statusOf (this : ListType) : ProjectStatus :=
  match this with
  | active => Active
  | finished => Finished
  end.

(** [ProjectList.dropHandler]; [projId] is the text the drag carries. *)
Definition dropHandler (this : ListType) (projId : jsstring) (w : World)
  : option World :=
  moveProject projId (statusOf this) w.

(** The calls a view can make on the store. *)
Inductive StoreOp : Type :=
| AddProject (random : number) (title description : jsstring)
    (numOfPeople : number)
| MoveProject (projectId : jsstring) (newStatus : ProjectStatus)
| AddListener (listenerFn : Listener).

Definition runOp (op : StoreOp) (w : World) : option World :=
  match op with
  | AddProject random title description numOfPeople =>
      addProject random title description numOfPeople w
  | MoveProject projectId newStatus => moveProject projectId newStatus w
  | AddListener listenerFn => Some (addListener listenerFn w)
  end.

Fixpoint runOps (ops : list StoreOp) (w : World) : option World :=
  match ops with
  | [] => Some w
  | op :: rest => w1 ← runOp op w; runOps rest w1
  end.

(** ** ProjectInput *)

Section Input.

(** The unary [+] applied to the text of the people field. *)
Variable ToNumber : jsstring -> number.

(** [gatherUserInput]: [None] is the [void] result. *)
Definition gatherUserInput (w : World)
  : option (jsstring * jsstring * number) * World :=
  let enteredTitle := titleInputElement (prjInput w) in
  let enteredDescription := descriptionInputElement (prjInput w) in
  let enteredPeople := peopleInputElement (prjInput w) in
  if negb (validate (titleValidatable enteredTitle))
     || negb (validate (descriptionValidatable enteredDescription))
     || negb (validate (peopleValidatable (ToNumber enteredPeople)))
  then (None, emit (Alert (str "Invalid input, please try again")) w)
  else (Some (enteredTitle, enteredDescription, ToNumber enteredPeople), w).

Definition clearInputs (w : World) : World :=
  set_prjInput (mkInput [] [] []) w.

(** [submitHandler]: [clearInputs] is called inside the [if] and once more
    after it. *)
Definition submitHandler (random : number) (w : World) : option World :=
  let '(userInput, w1) := gatherUserInput w in
  w2 ← match userInput with
       | Some (title, desc, people) =>
           w' ← addProject random title desc people w1;
           Some (clearInputs w')
       | None => Some w1
       end;
  Some (clearInputs w2).

End Input.

(** The state once the module has run: the singleton store with its empty
    array, the input form, then the two lists in the order they are created,
    each with its own empty [assignedProjects] and its listener. *)
Definition init : World :=
  mkWorld [] [[]; []; []] 0%nat
    [ListListener active; ListListener finished]
    (mkInput [] [] [])
    (mkList 1%nat []) (mkList 2%nat [])
    [].

(** ** Drag and drop *)

(** The [DataTransfer] of a drag: the data by format, in the order of its
    [types], and [effectAllowed]. *)
Record DataTransfer : Type := mkDataTransfer {
  dt_items : list (jsstring * jsstring);
  effectAllowed : jsstring
}.

(** [dt.setData(format, data)]: an entry of that format is removed and the new
    one added as the last. *)
Definition setData (format data : jsstring) (dt : DataTransfer) : DataTransfer :=
  mkDataTransfer
    (List.filter (fun e => negb (jsstring_eqb (fst e) format)) (dt_items dt)
     ++ [(format, data)])
    (effectAllowed dt).

(** [dt.getData(format)]: the empty string when nothing was set. *)
Definition getData (format : jsstring) (dt : DataTransfer) : jsstring :=
  match List.find (fun e => jsstring_eqb (fst e) format) (dt_items dt) with
  | Some e => snd e
  | None => []
  end.

(** [dt.types]. *)
Definition types (dt : DataTransfer) : list jsstring := map fst (dt_items dt).

(** A [DragEvent], as far as the handlers use it; [dataTransfer] may be
    null. *)
Record DragEvent : Type := mkDragEvent {
  dataTransfer : option DataTransfer;
  defaultPrevented : bool
}.

(** [ProjectItem.dragStartHandler]; the [!] on a null [dataTransfer] is the
    failure. *)
Definition dragStartHandler (heap : list Project.t) (item : ProjectItem)
    (event : DragEvent) : option DragEvent :=
  dt ← dataTransfer event;
  prj ← heap !! project item;
  let dt1 := setData (str "text/plain") (Project.id prj) dt in
  Some (mkDragEvent (Some (mkDataTransfer (dt_items dt1) (str "move")))
          (defaultPrevented event)).

(** [classList.add(token)] and [classList.remove(token)] on the class tokens
    of an element. *)
Definition classList_add (token : jsstring) (classes : list jsstring)
  : list jsstring :=
  if existsb (jsstring_eqb token) classes then classes else classes ++ [token].

Definition classList_remove (token : jsstring) (classes : list jsstring)
  : list jsstring :=
  List.filter (fun c => negb (jsstring_eqb c token)) classes.

(** [ProjectList.dragOverHandler]; [classes] are the class tokens of the
    [ul] of the list. *)
Definition dragOverHandler (event : DragEvent) (classes : list jsstring)
  : DragEvent * list jsstring :=
  match dataTransfer event with
  | Some dt =>
      match types dt with
      | first :: _ =>
          if jsstring_eqb first (str "text/plain") then
            (mkDragEvent (dataTransfer event) true,
             classList_add (str "droppable") classes)
          else (event, classes)
      | [] => (event, classes)
      end
  | None => (event, classes)
  end.

(** [ProjectList.dragLeaveHandler]. *)
Definition dragLeaveHandler (classes : list jsstring) : list jsstring :=
  classList_remove (str "droppable") classes.

(** [ProjectList.dropHandler] on the event itself. *)
Definition dropHandlerOn (this : ListType) (event : DragEvent) (w : World)
  : option World :=
  dt ← dataTransfer event;
  dropHandler this (getData (str "text/plain") dt) w.

(** ** Component *)

(** [Component.attach] on the children of the host, elements being told
    apart by their identity: [insertAdjacentElement] takes the element out
    of the place it has, then puts it first or last. *)
Definition attach (insertAtBeginning : bool) (element : nat)
    (hostChildren : list nat) : list nat :=
  let others := List.filter (fun e => negb (Nat.eqb e element)) hostChildren in
  if insertAtBeginning then element :: others else others ++ [element].

(** The children of the host once the three views are made, in the order of
    the last lines of the program: [new ProjectInput()] attaches at the start;
    [new ProjectList(...)] attaches at the end in the [Component] constructor
    and once more in its own. *)
Definition mountViews (prjInputEl activeEl finishedEl : nat)
    (hostChildren : list nat) : list nat :=
  let afterInput := attach true prjInputEl hostChildren in
  let afterActive := attach false activeEl (attach false activeEl afterInput) in
  attach false finishedEl (attach false finishedEl afterActive).

(** ** What the user does *)

(** Filling in the three fields, submitting the form, and dropping a drag
    that carries [projId] on a list. *)
Inductive Action : Type :=
| Fill (title description people : jsstring)
| Submit (random : number)
| Drop (this : ListType) (projId : jsstring).

Definition runAction (ToNumber : jsstring -> number) (a : Action) (w : World)
  : option World :=
  match a with
  | Fill title description people =>
      Some (set_prjInput (mkInput title description people) w)
  | Submit random => submitHandler ToNumber random w
  | Drop this projId => dropHandler this projId w
  end.

Fixpoint runActions (ToNumber : jsstring -> number) (acts : list Action)
    (w : World) : option World :=
  match acts with
  | [] => Some w
  | a :: rest => w1 ← runAction ToNumber a w; runActions ToNumber rest w1
  end.

(** * Notions used in the statements *)

(** A string has ink when one of its code units is not white space. *)
Definition hasInk (s : jsstring) : bool :=
  existsb (fun c => negb (isWhiteSpace c)) s.

(** A nonzero decimal digit somewhere in the string. *)
Definition hasNonzeroDigit (s : jsstring) : bool :=
  existsb (fun c => negb (c =? 48)%N && negb (isWhiteSpace c)) s.

(** The constraints in the words of the specification: each one that is
    present has to hold, and one that is absent says nothing. *)
Definition requiredHolds (v : Validatable.t) : Prop :=
  Validatable.required v = Some true ->
  trim (toString (Validatable.value v)) <> [].

Definition minLengthHolds (v : Validatable.t) : Prop :=
  forall bound s,
    Validatable.minLength v = Some bound -> Validatable.value v = VString s ->
    num_gt (ofNat (length s)) bound = true.

Definition maxLengthHolds (v : Validatable.t) : Prop :=
  forall bound s,
    Validatable.maxLength v = Some bound -> Validatable.value v = VString s ->
    num_lt (ofNat (length s)) bound = true.

Definition minHolds (v : Validatable.t) : Prop :=
  forall bound n,
    Validatable.min v = Some bound -> Validatable.value v = VNumber n ->
    num_gt n bound = true.

Definition maxHolds (v : Validatable.t) : Prop :=
  forall bound n,
    Validatable.max v = Some bound -> Validatable.value v = VNumber n ->
    num_lt n bound = true.

Definition constraintsHold (v : Validatable.t) : Prop :=
  requiredHolds v /\ minLengthHolds v /\ maxLengthHolds v
  /\ minHolds v /\ maxHolds v.

(** The filter predicate on a reference: the project behind it is read from
    the heap. *)
Definition relevantAt (heap : list Project.t) (this : ListType) (a : addr)
  : bool :=
  match heap !! a with
  | Some prj => relevant this prj
  | None => false
  end.

(** The references a list keeps out of [items]. *)
Definition keptOf (heap : list Project.t) (this : ListType)
    (items : list addr) : list addr :=
  List.filter (relevantAt heap this) items.

(** The item rendered for the project [prj] stored at [a]. *)
Definition itemFor (a : addr) (prj : Project.t) : ProjectItem :=
  mkItem a (Project.title prj) (persons prj ++ str " assigned")
    (Project.description prj).

(** What a call of the listener of [this] with the array [items] leaves
    behind: a new array with the kept references, assigned to the list, and
    the items rendered from it. *)
Definition called (this : ListType) (items : list addr) (ps : list Project.t)
    (w : World) : World :=
  let kept := keptOf (projectHeap w) this items in
  set_prjList this
    (mkList (length (arrayHeap w))
       (zip_with itemFor kept (List.filter (relevant this) ps)))
    (set_arrayHeap (arrayHeap w ++ [kept]) w).

(** The list [this] shows the projects of [items] that have its status:
    its [assignedProjects] holds exactly the kept references and its [ul]
    one item for each, in that order. *)
Definition displays (this : ListType) (items : list addr)
    (ps : list Project.t) (w : World) : Prop :=
  arrayHeap w !! assignedProjects (prjList this w)
  = Some (keptOf (projectHeap w) this items)
  /\ listEl (prjList this w)
     = zip_with itemFor (keptOf (projectHeap w) this items)
         (List.filter (relevant this) ps).

(** The outcome of notifying the listeners [ls] from [w], the store array
    holding [items]: [snaps] are the arrays handed out, one per listener. *)
Record notified (ls : list Listener) (items : list addr) (ps : list Project.t)
    (w w' : World) (snaps : list addr) : Prop := {
  n_heap : projectHeap w' = projectHeap w;
  n_projects : projects w' = projects w;
  n_listeners : listeners w' = listeners w;
  n_input : prjInput w' = prjInput w;
  n_arrays : exists extra, arrayHeap w' = arrayHeap w ++ extra;
  n_log : log w' = log w ++ zip_with Notified ls snaps;
  n_count : length snaps = length ls;
  n_fresh : Forall (fun a => (length (arrayHeap w) <= a)%nat
                             /\ arrayHeap w' !! a = Some items) snaps;
  n_distinct : NoDup snaps;
  n_views : forall this,
      In (ListListener this) ls \/ displays this items ps w ->
      displays this items ps w';
  n_others : forall this,
      ~ In (ListListener this) ls -> prjList this w' = prjList this w
}.

(** A well-formed store: its array exists, holds no reference twice and
    only references to allocated projects. *)
Definition wf (w : World) : Prop :=
  exists items,
    arrayHeap w !! projects w = Some items
    /\ NoDup items
    /\ Forall (fun a => (a < length (projectHeap w))%nat) items.

(** The state in which [addProject] starts to notify. *)
Definition added (random : number) (title description : jsstring)
    (numOfPeople : number) (items : list addr) (w : World) : World :=
  set_arrayHeap
    (<[projects w := items ++ [length (projectHeap w)]]> (arrayHeap w))
    (set_projectHeap
       (projectHeap w ++
        [Project.mk (Number_toString random) title description numOfPeople Active])
       w).

(** The state in which [moveProject] starts to notify. *)
Definition moved (a : addr) (prj : Project.t) (newStatus : ProjectStatus)
    (w : World) : World :=
  set_projectHeap (<[a := Project.set_status prj newStatus]> (projectHeap w)) w.

(** The state after one project has been added to the empty board. *)
Definition oneProject : World :=
  Eval vm_compute in
    default init
      (addProject (Finite 5 (-1)) (str "Build API")
         (str "Design and build a REST API") (ofZ 3) init).

(** The list [this] shows, of the projects [ps] behind the references
    [items], exactly those that have its status, in the same order: its
    [assignedProjects] array holds their references and its [ul] one item for
    each of them. *)
Definition shows (this : ListType) (items : list addr) (ps : list Project.t)
    (w : World) : Prop :=
  exists kept,
    arrayHeap w !! assignedProjects (prjList this w) = Some kept
    /\ readAll (projectHeap w) kept =
       Some (List.filter
               (fun prj => ProjectStatus_eqb (Project.status prj) (statusOf this))
               ps)
    /\ listEl (prjList this w) =
       zip_with itemFor kept
         (List.filter
            (fun prj => ProjectStatus_eqb (Project.status prj) (statusOf this))
            ps)
    /\ length (listEl (prjList this w)) =
       length (List.filter
                 (fun prj => ProjectStatus_eqb (Project.status prj) (statusOf this))
                 ps)
    /\ sublist kept items
    /\ (NoDup items -> NoDup kept).

(** Two projects that differ in their status at most. *)
Definition sameButStatus (prj prj' : Project.t) : Prop :=
  Project.id prj' = Project.id prj
  /\ Project.title prj' = Project.title prj
  /\ Project.description prj' = Project.description prj
  /\ Project.people prj' = Project.people prj.

(** What store operations keep from [w] to [w']: the store's array is the
    same object, every other array holds the references it held, and every
    project is still there, with another status at most. *)
Record keeps (w w' : World) : Prop := {
  k_projects : projects w' = projects w;
  k_arrays : forall a arr,
      a <> projects w -> arrayHeap w !! a = Some arr ->
      arrayHeap w' !! a = Some arr;
  k_fields : forall b prj,
      projectHeap w !! b = Some prj ->
      exists prj', projectHeap w' !! b = Some prj' /\ sameButStatus prj prj'
}.

(** The snapshots that [w'] has handed to the listeners [ls] since [w]:
    arrays other than the store's own that hold what the store's array holds
    in [w']. *)
Definition delivered (ls : list Listener) (snaps : list addr) (w w' : World)
  : Prop :=
  log w' = log w ++ zip_with Notified ls snaps
  /\ length snaps = length ls
  /\ Forall (fun a => a <> projects w'
                      /\ exists S, arrayHeap w' !! a = Some S
                                   /\ arrayHeap w' !! projects w' = Some S)
       snaps.

(** The store's array holds the references [items], none of them twice, and
    the projects behind them are [ps]. *)
Definition stored (items : list addr) (ps : list Project.t) (w : World)
  : Prop :=
  arrayHeap w !! projects w = Some items
  /\ NoDup items
  /\ readAll (projectHeap w) items = Some ps.

(** The views are in step with the store: the store's array holds [items],
    without repeats, whose projects are [ps]; both lists have their listener
    registered and display [items]. *)
Definition syncedWith (items : list addr) (ps : list Project.t) (w : World)
  : Prop :=
  arrayHeap w !! projects w = Some items
  /\ NoDup items
  /\ readAll (projectHeap w) items = Some ps
  /\ (forall this, In (ListListener this) (listeners w))
  /\ (forall this, displays this items ps w).

(** What the form accepts: a title and a description that are not blank, a
    description of more than five code units, and a people count strictly
    between 1 and 5. *)
Definition acceptable (title description : jsstring) (people : number)
  : Prop :=
  hasInk title = true
  /\ hasInk description = true
  /\ (5 < length description)%nat
  /\ num_lt (ofZ 1) people = true
  /\ num_lt people (ofZ 5) = true.

(** The fields of a project are such as the form accepts. *)
Definition validFields (prj : Project.t) : Prop :=
  acceptable (Project.title prj) (Project.description prj) (Project.people prj).

(** The number of [addProject] calls among [ops]. *)
Definition countAdds (ops : list StoreOp) : nat :=
  length (List.filter
            (fun op => match op with AddProject _ _ _ _ => true | _ => false end)
            ops).

(** The state after [Math.random()] has returned the same number for two
    projects in a row. *)
Definition twoAlike : World :=
  Eval vm_compute in
    default init
      (w1 ← addProject (Finite 5 (-1)) (str "First") (str "first project")
              (ofZ 2) init;
       addProject (Finite 5 (-1)) (str "Second") (str "second project")
         (ofZ 3) w1).

(** * Properties *)

(** ** Printing, on examples *)

Example toString_3 : Number_toString (ofZ 3) = str "3".
Proof. reflexivity. Qed.
Example toString_100 : Number_toString (ofZ 100) = str "100".
Proof. reflexivity. Qed.
Example toString_half : Number_toString (Finite 5 (-1)) = str "0.5".
Proof. reflexivity. Qed.
Example toString_frac : Number_toString (Finite (-1250) (-2)) = str "-12.5".
Proof. reflexivity. Qed.
Example toString_big : Number_toString (Finite 1 21) = str "1e+21".
Proof. reflexivity. Qed.
Example toString_small : Number_toString (Finite 123 (-9)) = str "1.23e-7".
Proof. reflexivity. Qed.
Example toString_small2 : Number_toString (Finite 123 (-8)) = str "0.00000123".
Proof. reflexivity. Qed.

(** ** Comparing, on examples *)

Example lt_one_and_a_half : num_lt (Finite 15 (-1)) (ofZ 2) = true.
Proof. reflexivity. Qed.
Example lt_five_five : num_lt (ofZ 5) (Finite 50 (-1)) = false.
Proof. reflexivity. Qed.
Example eq_five_five : num_strict_eq (Finite 50 (-1)) (ofZ 5) = true.
Proof. reflexivity. Qed.
Example lt_NaN : num_lt NaN (ofZ 5) = false /\ num_lt (ofZ 1) NaN = false.
Proof. split; reflexivity. Qed.
Example eq_NaN : num_strict_eq NaN NaN = false.
Proof. reflexivity. Qed.

(** ** Trimming and printing *)

Lemma hasInk_rev s : hasInk (rev s) = hasInk s.
Proof.
  unfold hasInk. apply eq_true_iff_eq.
  rewrite !existsb_exists. split; intros (c & Hin & Hc); exists c; split; auto.
  - now apply in_rev.
  - now apply in_rev in Hin.
Qed.

Lemma hasInk_trimStart s : hasInk (trimStart s) = hasInk s.
Proof.
  induction s as [|c s IH]; simpl; [reflexivity|].
  destruct (isWhiteSpace c) eqn:Hc; simpl; rewrite ?Hc; auto.
Qed.

Lemma hasInk_trim s : hasInk (trim s) = hasInk s.
Proof.
  unfold trim, trimEnd.
  now rewrite hasInk_rev, hasInk_trimStart, hasInk_rev, hasInk_trimStart.
Qed.

Lemma hasInk_length s : hasInk s = true -> Nat.eqb (length s) 0 = false.
Proof. destruct s; simpl; [discriminate | reflexivity]. Qed.

Lemma trim_length_ink s :
  hasInk s = true -> Nat.eqb (length (trim s)) 0 = false.
Proof. intros H. apply hasInk_length. now rewrite hasInk_trim. Qed.

Lemma hasNonzeroDigit_ink s : hasNonzeroDigit s = true -> hasInk s = true.
Proof.
  unfold hasNonzeroDigit, hasInk. rewrite !existsb_exists.
  intros (c & Hin & Hc). exists c. split; [assumption|].
  now apply andb_prop in Hc.
Qed.

Lemma hasNonzeroDigit_rev s : hasNonzeroDigit (rev s) = hasNonzeroDigit s.
Proof.
  unfold hasNonzeroDigit. apply eq_true_iff_eq.
  rewrite !existsb_exists. split; intros (c & Hin & Hc); exists c; split; auto.
  - now apply in_rev.
  - now apply in_rev in Hin.
Qed.

Lemma hasNonzeroDigit_dropZeros s :
  hasNonzeroDigit (dropZeros s) = hasNonzeroDigit s.
Proof.
  induction s as [|c s IH]; simpl; [reflexivity|].
  destruct (c =? 48)%N eqn:Hc; simpl; rewrite ?Hc; auto.
Qed.

Lemma all_zero_of_uint d :
  hasNonzeroDigit (uint_chars d) = false -> Pos.of_uint d = 0%N.
Proof.
  induction d; simpl; intros H; try discriminate; auto.
Qed.

Lemma digits_nonzero p : hasNonzeroDigit (digits p) = true.
Proof.
  unfold digits. destruct (hasNonzeroDigit _) eqn:H; [reflexivity|].
  apply all_zero_of_uint in H.
  rewrite DecimalPos.Unsigned.of_to in H. discriminate.
Qed.

Lemma formatDigits_ink ds n :
  hasInk ds = true -> hasInk (formatDigits ds n) = true.
Proof.
  intros H. unfold formatDigits.
  destruct (_ && _).
  { unfold hasInk in *. rewrite existsb_app, H. reflexivity. }
  destruct (_ && _).
  { unfold hasInk. rewrite existsb_app. simpl. apply orb_true_r. }
  destruct (_ && _); [reflexivity|].
  destruct ds as [|d [|d' rest]]; [discriminate| |].
  - unfold hasInk. simpl. apply orb_true_r.
  - unfold hasInk. simpl. apply orb_true_r.
Qed.

Lemma formatPositive_ink p e : hasInk (formatPositive p e) = true.
Proof.
  unfold formatPositive. apply formatDigits_ink, hasNonzeroDigit_ink.
  unfold stripTrailingZeros.
  rewrite hasNonzeroDigit_rev, hasNonzeroDigit_dropZeros, hasNonzeroDigit_rev.
  apply digits_nonzero.
Qed.

(** The decimal string of a number always has ink. *)
Lemma Number_toString_ink n : hasInk (Number_toString n) = true.
Proof.
  destruct n as [| | |[|q|q] e]; try reflexivity.
  apply formatPositive_ink.
Qed.

(** ** Comparing numbers *)

Lemma num_lt_ofZ a b : num_lt (ofZ a) (ofZ b) = (a <? b).
Proof.
  unfold num_lt, ofZ, Finite_compare, scale. simpl. rewrite !Z.mul_1_r.
  unfold Z.ltb. reflexivity.
Qed.

(** Against an integer, a decimal with a non-negative exponent compares by
    its value and one with a negative exponent by cross-multiplying. *)
Lemma num_lt_Finite_ofZ_l z m e :
  num_lt (ofZ z) (Finite m e) =
  if 0 <=? e then z <? m * 10 ^ e else z * 10 ^ (- e) <? m.
Proof.
  unfold num_lt, ofZ, Finite_compare, scale, Z.ltb.
  destruct (0 <=? e) eqn:He.
  - apply Z.leb_le in He. rewrite Z.min_l by lia. simpl.
    now rewrite Z.mul_1_r, Z.sub_0_r.
  - apply Z.leb_gt in He. rewrite Z.min_r by lia.
    now rewrite Z.sub_diag, Z.sub_0_l, Z.mul_1_r.
Qed.

Lemma num_lt_Finite_ofZ_r z m e :
  num_lt (Finite m e) (ofZ z) =
  if 0 <=? e then m * 10 ^ e <? z else m <? z * 10 ^ (- e).
Proof.
  unfold num_lt, ofZ, Finite_compare, scale, Z.ltb.
  destruct (0 <=? e) eqn:He.
  - apply Z.leb_le in He. rewrite Z.min_r by lia. simpl.
    now rewrite Z.mul_1_r, Z.sub_0_r.
  - apply Z.leb_gt in He. rewrite Z.min_l by lia.
    now rewrite Z.sub_diag, Z.sub_0_l, Z.mul_1_r.
Qed.

(** ** The validator *)

(** The [required] test on a number value always passes. *)
Lemma required_number n :
  Nat.eqb (length (trim (Number_toString n))) 0 = false.
Proof. apply trim_length_ink, Number_toString_ink. Qed.

Lemma length_eqb_nil {A} (l : list A) :
  Nat.eqb (length l) 0 = false <-> l <> [].
Proof. destruct l; simpl; split; congruence. Qed.

(** On a number the validator only looks at [min] and [max]. *)
Lemma validate_number n req minL maxL mn mx :
  validate (Validatable.mk (VNumber n) req minL maxL mn mx) =
  match mn with Some bound => num_gt n bound | None => true end
  && match mx with Some bound => num_lt n bound | None => true end.
Proof.
  unfold validate; simpl. rewrite required_number.
  destruct (truthy req), minL, maxL, mn, mx; simpl;
    rewrite ?andb_true_r; reflexivity.
Qed.

(** On a string it only looks at [required], [minLength] and [maxLength]. *)
Lemma validate_string s req minL maxL mn mx :
  validate (Validatable.mk (VString s) req minL maxL mn mx) =
  (if truthy req then negb (Nat.eqb (length (trim s)) 0) else true)
  && match minL with Some bound => num_gt (ofNat (length s)) bound | None => true end
  && match maxL with Some bound => num_lt (ofNat (length s)) bound | None => true end.
Proof.
  unfold validate; simpl.
  destruct (truthy req), minL, maxL, mn, mx; simpl;
    rewrite ?andb_true_r; reflexivity.
Qed.

Lemma validate_constraintsHold v : validate v = true <-> constraintsHold v.
Proof.
  destruct v as [[s|n] req minL maxL mn mx].
  - rewrite validate_string, !andb_true_iff.
    unfold constraintsHold, requiredHolds, minLengthHolds, maxLengthHolds,
      minHolds, maxHolds; simpl.
    split.
    + intros [[Hreq HminL] HmaxL]. repeat split.
      * intros ->. simpl in Hreq. apply length_eqb_nil.
        now apply negb_true_iff in Hreq.
      * now intros bound s0 -> [= <-].
      * now intros bound s0 -> [= <-].
      * discriminate.
      * discriminate.
    + intros (Hreq & HminL & HmaxL & _ & _). repeat split.
      * destruct req as [[|]|]; simpl; auto.
        apply negb_true_iff, length_eqb_nil. now apply Hreq.
      * destruct minL as [bound|]; [|reflexivity]. now apply HminL.
      * destruct maxL as [bound|]; [|reflexivity]. now apply HmaxL.
  - rewrite validate_number, !andb_true_iff.
    unfold constraintsHold, requiredHolds, minLengthHolds, maxLengthHolds,
      minHolds, maxHolds; simpl.
    split.
    + intros [Hmin Hmax]. repeat split.
      * intros _. apply length_eqb_nil, required_number.
      * discriminate.
      * discriminate.
      * now intros bound n0 -> [= <-].
      * now intros bound n0 -> [= <-].
    + intros (_ & _ & _ & Hmin & Hmax). split.
      * destruct mn as [bound|]; [|reflexivity]. now apply Hmin.
      * destruct mx as [bound|]; [|reflexivity]. now apply Hmax.
Qed.

(** C4: the people constraint of [gatherUserInput] accepts a number exactly
    when it lies strictly between 1 and 5.  On a decimal [m * 10 ^ e] this is
    the strict order of the values, so NaN and the infinities are rejected;
    among the integers only 2, 3 and 4 pass, 1 and 5 do not. *)
Theorem validate_people_strict_bounds :
  (forall n, validate (peopleValidatable n) = true <->
             num_lt (ofZ 1) n = true /\ num_lt n (ofZ 5) = true)
  /\ (forall m e, 0 <= e ->
        (validate (peopleValidatable (Finite m e)) = true <->
         1 < m * 10 ^ e < 5))
  /\ (forall m e, e < 0 ->
        (validate (peopleValidatable (Finite m e)) = true <->
         10 ^ (- e) < m < 5 * 10 ^ (- e)))
  /\ (forall z, validate (peopleValidatable (ofZ z)) = true <->
                z = 2 \/ z = 3 \/ z = 4)
  /\ validate (peopleValidatable (ofZ 1)) = false
  /\ validate (peopleValidatable (ofZ 5)) = false
  /\ validate (peopleValidatable NaN) = false
  /\ validate (peopleValidatable PosInfinity) = false
  /\ validate (peopleValidatable NegInfinity) = false.
Proof.
  assert (G : forall n, validate (peopleValidatable n) = true <->
                        num_lt (ofZ 1) n = true /\ num_lt n (ofZ 5) = true).
  { intros n. unfold peopleValidatable. rewrite validate_number.
    unfold num_gt. apply andb_true_iff. }
  split; [exact G|].
  split.
  { intros m e He. rewrite G, num_lt_Finite_ofZ_l, num_lt_Finite_ofZ_r.
    apply Z.leb_le in He. rewrite He. rewrite !Z.ltb_lt. reflexivity. }
  split.
  { intros m e He. rewrite G, num_lt_Finite_ofZ_l, num_lt_Finite_ofZ_r.
    apply Z.leb_gt in He. rewrite He. rewrite !Z.ltb_lt. lia. }
  split.
  { intros z. rewrite G, !num_lt_ofZ, !Z.ltb_lt. lia. }
  repeat split; reflexivity.
Qed.

(** C5: on a string value a present [minLength] (resp. [maxLength]) lets the
    validator answer true only when the length is strictly greater (resp.
    strictly less) than the bound, so a length equal to the bound is
    rejected; the two examples of the specification evaluate as stated; and
    the answer is the conjunction of the constraints that are present. *)
Theorem validate_length_strict_and :
  (forall s req bound maxL mn mx,
      validate (Validatable.mk (VString s) req (Some bound) maxL mn mx) = true ->
      num_gt (ofNat (length s)) bound = true)
  /\ (forall s req minL bound mn mx,
      validate (Validatable.mk (VString s) req minL (Some bound) mn mx) = true ->
      num_lt (ofNat (length s)) bound = true)
  /\ (forall s req (bound : Z) maxL mn mx,
      validate (Validatable.mk (VString s) req (Some (ofZ bound)) maxL mn mx) = true ->
      bound < Z.of_nat (length s))
  /\ (forall s req minL (bound : Z) mn mx,
      validate (Validatable.mk (VString s) req minL (Some (ofZ bound)) mn mx) = true ->
      Z.of_nat (length s) < bound)
  /\ (forall s req maxL mn mx,
      validate (Validatable.mk (VString s) req (Some (ofNat (length s))) maxL mn mx)
      = false)
  /\ (forall s req minL mn mx,
      validate (Validatable.mk (VString s) req minL (Some (ofNat (length s))) mn mx)
      = false)
  /\ validate (Validatable.mk (VString (str "abc")) (Some true) (Some (ofZ 5))
                 None None None) = false
  /\ validate (Validatable.mk (VString (str "abcdef")) None (Some (ofZ 5))
                 None None None) = true
  /\ (forall v, validate v = true <-> constraintsHold v).
Proof.
  assert (Hmin : forall s req bound maxL mn mx,
      validate (Validatable.mk (VString s) req (Some bound) maxL mn mx) = true ->
      num_gt (ofNat (length s)) bound = true).
  { intros s req bound maxL mn mx. rewrite validate_string.
    intros H. apply andb_prop in H as [H _]. now apply andb_prop in H as [_ H]. }
  assert (Hmax : forall s req minL bound mn mx,
      validate (Validatable.mk (VString s) req minL (Some bound) mn mx) = true ->
      num_lt (ofNat (length s)) bound = true).
  { intros s req minL bound mn mx. rewrite validate_string.
    intros H. now apply andb_prop in H as [_ H]. }
  split; [exact Hmin|]. split; [exact Hmax|].
  split.
  { intros s req bound maxL mn mx H. apply Hmin in H.
    unfold num_gt, ofNat in H. rewrite num_lt_ofZ in H. now apply Z.ltb_lt. }
  split.
  { intros s req minL bound mn mx H. apply Hmax in H.
    unfold ofNat in H. rewrite num_lt_ofZ in H. now apply Z.ltb_lt. }
  split.
  { intros s req maxL mn mx.
    destruct (validate _) eqn:H; [|reflexivity].
    apply Hmin in H. unfold num_gt, ofNat in H.
    rewrite num_lt_ofZ, Z.ltb_irrefl in H. discriminate. }
  split.
  { intros s req minL mn mx.
    destruct (validate _) eqn:H; [|reflexivity].
    apply Hmax in H. unfold ofNat in H.
    rewrite num_lt_ofZ, Z.ltb_irrefl in H. discriminate. }
  split; [reflexivity|]. split; [reflexivity|].
  apply validate_constraintsHold.
Qed.

(** C10: a constraint is applied only to a value of its own type.  On a
    number [minLength] and [maxLength] are skipped, on a string [min] and
    [max] are; and [required] holds for every number, so that on a number the
    answer depends on [min] and [max] alone. *)
Theorem validate_type_guards :
  (forall n req minL maxL mn mx,
      validate (Validatable.mk (VNumber n) req minL maxL mn mx) =
      validate (Validatable.mk (VNumber n) req None None mn mx))
  /\ (forall s req minL maxL mn mx,
      validate (Validatable.mk (VString s) req minL maxL mn mx) =
      validate (Validatable.mk (VString s) req minL maxL None None))
  /\ (forall n, validate (Validatable.mk (VNumber n) (Some true)
                            None None None None) = true)
  /\ (forall n, Nat.eqb (length (trim (toString (VNumber n)))) 0 = false)
  /\ (forall n req minL maxL mn mx,
      validate (Validatable.mk (VNumber n) req minL maxL mn mx) =
      validate (Validatable.mk (VNumber n) None minL maxL mn mx)).
Proof.
  split; [intros; now rewrite !validate_number|].
  split; [intros; now rewrite !validate_string|].
  split; [intros; now rewrite validate_number|].
  split; [intros; apply required_number|].
  intros; now rewrite !validate_number.
Qed.

(** ** Reading arrays of references *)

Lemma jsstring_eqb_eq a b : jsstring_eqb a b = true <-> a = b.
Proof.
  revert b. induction a as [|x a IH]; intros [|y b]; simpl; try easy.
  unfold char16_eqb. rewrite andb_true_iff, N.eqb_eq, IH.
  split; [intros [-> ->]; reflexivity | intros [= -> ->]; auto].
Qed.

Lemma jsstring_eqb_refl a : jsstring_eqb a a = true.
Proof. now apply jsstring_eqb_eq. Qed.

Lemma jsstring_eqb_neq a b : a <> b -> jsstring_eqb a b = false.
Proof.
  intros H. destruct (jsstring_eqb a b) eqn:E; [|reflexivity].
  now apply jsstring_eqb_eq in E.
Qed.

Lemma readAll_cons heap a items :
  readAll heap (a :: items) =
  (prj ← heap !! a; ps ← readAll heap items; Some (prj :: ps)).
Proof. reflexivity. Qed.

Lemma readAll_length heap items ps :
  readAll heap items = Some ps -> length ps = length items.
Proof.
  revert ps. induction items as [|a items IH]; intros ps.
  - now intros [= <-].
  - rewrite readAll_cons. intros H.
    destruct (heap !! a); [|discriminate]; simpl in H.
    destruct (readAll heap items) eqn:E; [|discriminate].
    injection H as <-. simpl. now rewrite (IH _ eq_refl).
Qed.

Lemma readAll_valid heap items ps :
  readAll heap items = Some ps ->
  Forall (fun a => (a < length heap)%nat) items.
Proof.
  revert ps. induction items as [|a items IH]; intros ps; [constructor|].
  rewrite readAll_cons. intros H.
  destruct (heap !! a) eqn:Ea; [|discriminate]; simpl in H.
  destruct (readAll heap items) eqn:E; [|discriminate].
  constructor; [|eauto]. apply lookup_lt_is_Some. eauto.
Qed.

Lemma readAll_total heap items :
  Forall (fun a => (a < length heap)%nat) items ->
  exists ps, readAll heap items = Some ps.
Proof.
  induction 1 as [|a items Ha _ [ps IH]]; [now exists []|].
  apply lookup_lt_is_Some in Ha as [prj Ha].
  exists (prj :: ps). rewrite readAll_cons, Ha. simpl. now rewrite IH.
Qed.

Lemma readAll_app heap items1 items2 :
  readAll heap (items1 ++ items2) =
  (ps1 ← readAll heap items1; ps2 ← readAll heap items2; Some (ps1 ++ ps2)).
Proof.
  induction items1 as [|a items1 IH].
  - simpl. destruct (readAll heap items2); reflexivity.
  - change ((a :: items1) ++ items2) with (a :: (items1 ++ items2)).
    rewrite !readAll_cons, IH. destruct (heap !! a); [|reflexivity]; simpl.
    destruct (readAll heap items1); [|reflexivity]; simpl.
    destruct (readAll heap items2); reflexivity.
Qed.

(** Reading is not disturbed by objects allocated later. *)
Lemma readAll_grow heap extra items ps :
  readAll heap items = Some ps -> readAll (heap ++ extra) items = Some ps.
Proof.
  revert ps. induction items as [|a items IH]; intros ps; [easy|].
  rewrite !readAll_cons. intros H.
  destruct (heap !! a) eqn:Ea; [|discriminate]; simpl in H.
  destruct (readAll heap items) eqn:E; [|discriminate].
  erewrite lookup_app_l_Some by exact Ea. simpl.
  now rewrite (IH _ eq_refl).
Qed.

(** ** The listener of a list *)

Lemma filterProjects_keptOf heap this items ps :
  readAll heap items = Some ps ->
  filterProjects heap this items = Some (keptOf heap this items).
Proof.
  revert ps. induction items as [|a items IH]; intros ps; [easy|].
  rewrite readAll_cons. intros H. simpl.
  unfold relevantAt at 1.
  destruct (heap !! a) eqn:Ea; [|discriminate]; simpl in *.
  destruct (readAll heap items) eqn:E; [|discriminate].
  rewrite (IH _ eq_refl). simpl. now destruct (relevant this t).
Qed.

Lemma keptOf_read heap this items ps :
  readAll heap items = Some ps ->
  readAll heap (keptOf heap this items) = Some (List.filter (relevant this) ps).
Proof.
  revert ps. induction items as [|a items IH]; intros ps.
  - now intros [= <-].
  - rewrite readAll_cons. intros H. simpl. unfold relevantAt at 1.
    destruct (heap !! a) eqn:Ea; [|discriminate]; simpl in H.
    destruct (readAll heap items) eqn:E; [|discriminate].
    injection H as <-. simpl.
    destruct (relevant this t).
    + rewrite readAll_cons, Ea. simpl. now rewrite (IH _ eq_refl).
    + now apply IH.
Qed.

Lemma renderLoop_items heap items ps children :
  readAll heap items = Some ps ->
  renderLoop heap items children = Some (children ++ zip_with itemFor items ps).
Proof.
  revert ps children. induction items as [|a items IH]; intros ps children.
  - intros [= <-]. simpl. now rewrite app_nil_r.
  - rewrite readAll_cons. intros H. simpl. unfold new_ProjectItem.
    destruct (heap !! a) eqn:Ea; [|discriminate]; simpl in *.
    destruct (readAll heap items) eqn:E; [|discriminate].
    injection H as <-. rewrite (IH _ _ eq_refl). simpl.
    now rewrite <- app_assoc.
Qed.

Lemma prjList_set_prjList this l w : prjList this (set_prjList this l w) = l.
Proof. now destruct this. Qed.

Lemma prjList_set_prjList_ne this other l w :
  this <> other -> prjList other (set_prjList this l w) = prjList other w.
Proof. now destruct this, other. Qed.

Lemma ListType_eq_dec (a b : ListType) : {a = b} + {a <> b}.
Proof. decide equality. Qed.

Lemma callListener_called this snapshot items ps w :
  arrayHeap w !! snapshot = Some items ->
  readAll (projectHeap w) items = Some ps ->
  callListener (ListListener this) snapshot w = Some (called this items ps w).
Proof.
  intros Hs Hps. unfold callListener. rewrite Hs. simpl.
  rewrite (filterProjects_keptOf _ _ _ _ Hps). simpl.
  unfold renderProjects. rewrite prjList_set_prjList. simpl.
  assert (E : arrayHeap
            (set_prjList this
               (mkList (length (arrayHeap w))
                  (listEl (prjList this
                     (set_arrayHeap
                        (arrayHeap w ++ [keptOf (projectHeap w) this items]) w))))
               (set_arrayHeap
                  (arrayHeap w ++ [keptOf (projectHeap w) this items]) w))
            !! length (arrayHeap w)
          = Some (keptOf (projectHeap w) this items)).
  { destruct this; simpl; apply list_lookup_middle; reflexivity. }
  rewrite E. simpl.
  assert (H : projectHeap
            (set_prjList this
               (mkList (length (arrayHeap w))
                  (listEl (prjList this
                     (set_arrayHeap
                        (arrayHeap w ++ [keptOf (projectHeap w) this items]) w))))
               (set_arrayHeap
                  (arrayHeap w ++ [keptOf (projectHeap w) this items]) w))
          = projectHeap w) by now destruct this.
  rewrite H.
  rewrite (renderLoop_items _ _ _ _ (keptOf_read _ this _ _ Hps)). simpl.
  unfold called. now destruct this.
Qed.

Lemma called_displays this items ps w : displays this items ps (called this items ps w).
Proof.
  unfold displays, called. rewrite prjList_set_prjList. simpl.
  split; [|now destruct this].
  destruct this; simpl; apply list_lookup_middle; reflexivity.
Qed.

(** ** Notification *)

Lemma displays_step this other items ps w :
  displays other items ps w ->
  this <> other ->
  displays other items ps
    (called this items ps
       (emit (Notified (ListListener this) (length (arrayHeap w)))
          (set_arrayHeap (arrayHeap w ++ [items]) w))).
Proof.
  intros [Ha Hl] Hne. unfold displays.
  unfold called. rewrite prjList_set_prjList_ne by assumption.
  assert (Hh : forall l x, projectHeap (set_prjList this l x) = projectHeap x)
    by (intros; now destruct this).
  assert (Hr : forall l x, arrayHeap (set_prjList this l x) = arrayHeap x)
    by (intros; now destruct this).
  rewrite Hh, Hr. simpl.
  replace (prjList other _) with (prjList other w) by now destruct other.
  split; [|assumption].
  rewrite <- app_assoc. now apply lookup_app_l_Some.
Qed.

Lemma notify_cons listenerFn rest w items :
  arrayHeap w !! projects w = Some items ->
  notify (listenerFn :: rest) w =
  (w2 ← callListener listenerFn (length (arrayHeap w))
          (emit (Notified listenerFn (length (arrayHeap w)))
             (set_arrayHeap (arrayHeap w ++ [items]) w));
   notify rest w2).
Proof. intros H. simpl. now rewrite H. Qed.

Lemma notify_notified ls :
  forall w items ps,
    arrayHeap w !! projects w = Some items ->
    readAll (projectHeap w) items = Some ps ->
    exists w' snaps, notify ls w = Some w' /\ notified ls items ps w w' snaps.
Proof.
  induction ls as [|[this] rest IH]; intros w items ps Hitems Hps.
  - exists w, []. split; [reflexivity|].
    constructor; try reflexivity.
    + exists []. now rewrite app_nil_r.
    + simpl. now rewrite app_nil_r.
    + constructor.
    + constructor.
    + intros t [[]|Hd]; assumption.
  - set (a0 := length (arrayHeap w)).
    set (w1 := emit (Notified (ListListener this) a0)
                 (set_arrayHeap (arrayHeap w ++ [items]) w)).
    set (w2 := called this items ps w1).
    assert (E1 : arrayHeap w1 !! a0 = Some items)
      by (apply list_lookup_middle; reflexivity).
    assert (Hh2 : projectHeap w2 = projectHeap w) by (subst w2; now destruct this).
    assert (Hp2 : projects w2 = projects w) by (subst w2; now destruct this).
    assert (Ha2 : arrayHeap w2 =
                  arrayHeap w ++ [items; keptOf (projectHeap w) this items]).
    { subst w2. unfold called. destruct this; simpl; now rewrite <- app_assoc. }
    destruct (IH w2 items ps) as (w' & snaps & Hrun & N).
    { rewrite Hp2, Ha2. now apply lookup_app_l_Some. }
    { now rewrite Hh2. }
    exists w', (a0 :: snaps). split.
    { rewrite (notify_cons _ _ _ _ Hitems). fold a0. fold w1.
      rewrite (callListener_called this a0 items ps w1 E1 Hps).
      exact Hrun. }
    destruct N as [N1 N2 N3 N4 [extra N5] N6 N7 N8 N9 N10 N11].
    constructor.
    + congruence.
    + congruence.
    + rewrite N3. subst w2. now destruct this.
    + rewrite N4. subst w2. now destruct this.
    + exists ([items; keptOf (projectHeap w) this items] ++ extra).
      rewrite N5, Ha2. now rewrite <- app_assoc.
    + rewrite N6. simpl.
      replace (log w2) with (log w ++ [Notified (ListListener this) a0])
        by (subst w2; now destruct this).
      now rewrite <- app_assoc.
    + simpl. now rewrite N7.
    + constructor.
      * split; [subst a0; lia|]. rewrite N5, Ha2.
        apply lookup_app_l_Some. apply list_lookup_middle. reflexivity.
      * eapply Forall_impl; [exact N8|]. intros a [Hle Ha]. split; [|exact Ha].
        rewrite Ha2, length_app in Hle. lia.
    + constructor; [|exact N9]. intros Hin.
      rewrite Forall_forall in N8.
      apply N8 in Hin as [Hle _].
      rewrite Ha2, length_app in Hle. simpl in Hle. subst a0. lia.
    + intros t Ht. apply N10.
      destruct (ListType_eq_dec this t) as [<-|Hne].
      * right. subst w2. apply called_displays.
      * destruct Ht as [[Heq|Hin]|Hd].
        -- congruence.
        -- now left.
        -- right. subst w2 w1 a0. now apply displays_step.
    + intros t Hnot. rewrite N11 by (intros Hin; apply Hnot; now right).
      subst w2. unfold called.
      rewrite prjList_set_prjList_ne by (intros ->; apply Hnot; now left).
      now destruct t.
Qed.

(** ** Looking a project up by its id *)

Lemma find_none heap projectId items ps :
  readAll heap items = Some ps ->
  Forall (fun prj => Project.id prj <> projectId) ps ->
  find heap projectId items = Some None.
Proof.
  revert ps. induction items as [|a items IH]; intros ps; [easy|].
  rewrite readAll_cons. intros H Hall. simpl.
  destruct (heap !! a) as [prj|]; [|discriminate]; simpl in *.
  destruct (readAll heap items) as [ps'|]; [|discriminate].
  injection H as <-. inversion Hall as [|? ? Hne Hrest]; subst.
  rewrite (jsstring_eqb_neq _ _ Hne). eauto.
Qed.

Lemma find_first heap projectId items pre prj post :
  readAll heap items = Some (pre ++ prj :: post) ->
  Forall (fun q => Project.id q <> projectId) pre ->
  Project.id prj = projectId ->
  exists a, find heap projectId items = Some (Some a)
            /\ items !! length pre = Some a /\ heap !! a = Some prj.
Proof.
  revert pre. induction items as [|a items IH]; intros pre.
  - destruct pre; discriminate.
  - rewrite readAll_cons. intros H Hpre Hid. simpl.
    destruct (heap !! a) as [q|] eqn:Ea; [|discriminate]; simpl in *.
    destruct (readAll heap items) as [ps'|] eqn:E; [|discriminate].
    injection H as H. destruct pre as [|q' pre]; simpl in H.
    + injection H as -> ->. rewrite Hid, jsstring_eqb_refl. eauto.
    + injection H as -> ->. inversion Hpre as [|? ? Hne Hrest]; subst.
      rewrite (jsstring_eqb_neq _ _ Hne).
      destruct (IH pre eq_refl Hrest eq_refl) as (b & Hf & Hi & Hb).
      exists b. auto.
Qed.

(** Either no project has the id, or there is a first one that has it. *)
Lemma first_match_cases projectId (ps : list Project.t) :
  Forall (fun prj => Project.id prj <> projectId) ps
  \/ exists pre prj post,
       ps = pre ++ prj :: post
       /\ Forall (fun q => Project.id q <> projectId) pre
       /\ Project.id prj = projectId.
Proof.
  induction ps as [|q ps [IH|(pre & prj & post & -> & Hpre & Hid)]].
  - left. constructor.
  - destruct (jsstring_eqb (Project.id q) projectId) eqn:E.
    + right. exists [], q, ps. apply jsstring_eqb_eq in E. auto.
    + left. constructor; [|assumption]. intros Heq.
      apply jsstring_eqb_eq in Heq. congruence.
  - destruct (jsstring_eqb (Project.id q) projectId) eqn:E.
    + right. exists [], q, (pre ++ prj :: post).
      apply jsstring_eqb_eq in E. auto.
    + right. exists (q :: pre), prj, post. repeat split; auto.
      constructor; [|assumption]. intros Heq.
      apply jsstring_eqb_eq in Heq. congruence.
Qed.

Lemma readAll_insert_fresh heap items a x :
  a ∉ items -> readAll (<[a := x]> heap) items = readAll heap items.
Proof.
  induction items as [|b items IH]; intros Hnot; [reflexivity|].
  rewrite !readAll_cons.
  apply not_elem_of_cons in Hnot as [Hne Hnot].
  rewrite list_lookup_insert_ne by congruence.
  now rewrite IH.
Qed.

(** Overwriting the object behind the [i]-th reference changes the [i]-th
    project read, and only that one when no reference occurs twice. *)
Lemma readAll_insert heap items ps i a x :
  NoDup items ->
  readAll heap items = Some ps ->
  items !! i = Some a ->
  readAll (<[a := x]> heap) items = Some (<[i := x]> ps).
Proof.
  intros Hnd. revert ps i.
  induction Hnd as [|b items Hnot Hnd IH]; intros ps i; [easy|].
  rewrite !readAll_cons. intros H Hi.
  destruct (heap !! b) as [q|] eqn:Eb; [|discriminate]; simpl in H.
  destruct (readAll heap items) as [ps'|] eqn:E; [|discriminate].
  injection H as <-.
  destruct i as [|i]; simpl in Hi.
  - injection Hi as ->.
    rewrite list_lookup_insert_eq by (apply lookup_lt_is_Some; eauto).
    simpl. rewrite readAll_insert_fresh by assumption. now rewrite E.
  - assert (Hne : a <> b).
    { intros ->. apply Hnot. eapply list_elem_of_lookup_2. exact Hi. }
    rewrite list_lookup_insert_ne by assumption. rewrite Eb. simpl.
    now rewrite (IH _ _ eq_refl Hi).
Qed.

Lemma insert_first_match {A} (pre post : list A) x y :
  <[length pre := y]> (pre ++ x :: post) = pre ++ y :: post.
Proof.
  induction pre as [|z pre IH]; simpl; [reflexivity|]. now rewrite IH.
Qed.

(** ** Running the store operations *)

Lemma wf_init : wf init.
Proof. exists []. repeat split; constructor. Qed.

Lemma wf_read w :
  wf w ->
  exists items ps,
    arrayHeap w !! projects w = Some items
    /\ NoDup items
    /\ readAll (projectHeap w) items = Some ps.
Proof.
  intros (items & Hi & Hnd & Hv).
  destruct (readAll_total _ _ Hv) as [ps Hps]. eauto 6.
Qed.

Lemma updateListeners_notified w items ps :
  arrayHeap w !! projects w = Some items ->
  readAll (projectHeap w) items = Some ps ->
  exists w' snaps,
    updateListeners w = Some w' /\ notified (listeners w) items ps w w' snaps.
Proof. apply notify_notified. Qed.

Lemma readAll_last heap x : readAll (heap ++ [x]) [length heap] = Some [x].
Proof.
  rewrite readAll_cons, list_lookup_middle by reflexivity. reflexivity.
Qed.

Lemma addProject_run random title description numOfPeople w items ps :
  arrayHeap w !! projects w = Some items ->
  readAll (projectHeap w) items = Some ps ->
  exists w' snaps,
    addProject random title description numOfPeople w = Some w'
    /\ notified (listeners w) (items ++ [length (projectHeap w)])
         (ps ++ [Project.mk (Number_toString random) title description
                   numOfPeople Active])
         (added random title description numOfPeople items w) w' snaps.
Proof.
  intros Hi Hps.
  set (w2 := added random title description numOfPeople items w).
  destruct (updateListeners_notified w2 (items ++ [length (projectHeap w)])
              (ps ++ [Project.mk (Number_toString random) title description
                        numOfPeople Active]))
    as (w' & snaps & Hrun & N).
  - subst w2. unfold added. simpl. apply list_lookup_insert_eq.
    apply lookup_lt_is_Some. eauto.
  - subst w2. unfold added. simpl. rewrite readAll_app.
    rewrite (readAll_grow _ _ _ _ Hps), readAll_last. reflexivity.
  - exists w', snaps. split; [|exact N].
    unfold addProject, allocProject, push. simpl. rewrite Hi. simpl.
    exact Hrun.
Qed.

Lemma ProjectStatus_eqb_eq a b : ProjectStatus_eqb a b = true <-> a = b.
Proof. destruct a, b; simpl; split; congruence. Qed.

Lemma moveProject_run projectId newStatus w items pre prj post :
  arrayHeap w !! projects w = Some items ->
  NoDup items ->
  readAll (projectHeap w) items = Some (pre ++ prj :: post) ->
  Forall (fun q => Project.id q <> projectId) pre ->
  Project.id prj = projectId ->
  Project.status prj <> newStatus ->
  exists a w' snaps,
    items !! length pre = Some a
    /\ projectHeap w !! a = Some prj
    /\ moveProject projectId newStatus w = Some w'
    /\ notified (listeners w) items
         (pre ++ Project.set_status prj newStatus :: post)
         (moved a prj newStatus w) w' snaps.
Proof.
  intros Hi Hnd Hps Hpre Hid Hst.
  destruct (find_first _ _ _ _ _ _ Hps Hpre Hid) as (a & Hf & Ha & Hprj).
  destruct (updateListeners_notified (moved a prj newStatus w) items
              (pre ++ Project.set_status prj newStatus :: post))
    as (w' & snaps & Hrun & N).
  - exact Hi.
  - unfold moved. simpl. rewrite (readAll_insert _ _ _ _ _ _ Hnd Hps Ha).
    now rewrite insert_first_match.
  - exists a, w', snaps.
    split; [exact Ha|]. split; [exact Hprj|]. split; [|exact N].
    unfold moveProject. rewrite Hi. simpl. rewrite Hf. simpl. rewrite Hprj. simpl.
    destruct (ProjectStatus_eqb (Project.status prj) newStatus) eqn:E.
    + apply ProjectStatus_eqb_eq in E. contradiction.
    + exact Hrun.
Qed.

Lemma moveProject_unknown projectId newStatus w items ps :
  arrayHeap w !! projects w = Some items ->
  readAll (projectHeap w) items = Some ps ->
  Forall (fun prj => Project.id prj <> projectId) ps ->
  moveProject projectId newStatus w = Some w.
Proof.
  intros Hi Hps Hall. unfold moveProject. rewrite Hi. simpl.
  now rewrite (find_none _ _ _ _ Hps Hall).
Qed.

Lemma moveProject_same_status projectId w items pre prj post :
  arrayHeap w !! projects w = Some items ->
  readAll (projectHeap w) items = Some (pre ++ prj :: post) ->
  Forall (fun q => Project.id q <> projectId) pre ->
  Project.id prj = projectId ->
  moveProject projectId (Project.status prj) w = Some w.
Proof.
  intros Hi Hps Hpre Hid.
  destruct (find_first _ _ _ _ _ _ Hps Hpre Hid) as (a & Hf & Ha & Hprj).
  unfold moveProject. rewrite Hi. simpl. rewrite Hf. simpl. rewrite Hprj. simpl.
  replace (ProjectStatus_eqb (Project.status prj) (Project.status prj))
    with true by (now destruct (Project.status prj)).
  reflexivity.
Qed.

(** ** The store operations *)

(** C1 (as amended): [addProject] allocates one new project, Active and with
    the decimal string of the drawn random number as its id, and pushes it at
    the end of the store's array, the projects already there being untouched;
    then every registered listener is called exactly once, in registration
    order, each with a new array of its own that holds the same references as
    the store's array.  The id is distinct from the ids of the other projects
    whenever the drawn string differs from them; nothing more is checked. *)
Theorem addProject_appends_and_notifies
    random title description numOfPeople w items ps :
  arrayHeap w !! projects w = Some items ->
  readAll (projectHeap w) items = Some ps ->
  exists w' snaps,
    addProject random title description numOfPeople w = Some w'
    /\ projectHeap w' =
       projectHeap w ++
       [Project.mk (Number_toString random) title description numOfPeople Active]
    /\ projects w' = projects w
    /\ arrayHeap w' !! projects w' = Some (items ++ [length (projectHeap w)])
    /\ readProjects w' (projects w') =
       Some (ps ++ [Project.mk (Number_toString random) title description
                      numOfPeople Active])
    /\ listeners w' = listeners w
    /\ log w' = log w ++ zip_with Notified (listeners w) snaps
    /\ length snaps = length (listeners w)
    /\ NoDup snaps
    /\ Forall (fun a => a <> projects w'
                        /\ (length (arrayHeap w) <= a)%nat
                        /\ arrayHeap w' !! a
                           = Some (items ++ [length (projectHeap w)])) snaps
    /\ (Forall (fun prj => Project.id prj <> Number_toString random) ps ->
        NoDup (map Project.id ps) ->
        NoDup (map Project.id
                 (ps ++ [Project.mk (Number_toString random) title description
                           numOfPeople Active]))).
Proof.
  intros Hi Hps.
  destruct (addProject_run random title description numOfPeople w items ps Hi Hps)
    as (w' & snaps & Hrun & [N1 N2 N3 N4 [extra N5] N6 N7 N8 N9 _ _]).
  assert (Hlt : (projects w < length (arrayHeap w))%nat)
    by (apply lookup_lt_is_Some; eauto).
  assert (Hstore : arrayHeap w' !! projects w'
                   = Some (items ++ [length (projectHeap w)])).
  { rewrite N2, N5. unfold added. simpl. apply lookup_app_l_Some.
    now apply list_lookup_insert_eq. }
  exists w', snaps. split; [exact Hrun|].
  split; [exact N1|]. split; [exact N2|]. split; [exact Hstore|].
  split.
  { unfold readProjects. rewrite Hstore. simpl. rewrite N1. unfold added. simpl.
    rewrite readAll_app, (readAll_grow _ _ _ _ Hps), readAll_last. reflexivity. }
  split; [exact N3|]. split; [exact N6|]. split; [exact N7|]. split; [exact N9|].
  split.
  { eapply Forall_impl; [exact N8|]. intros a [Hle Ha].
    unfold added in Hle. simpl in Hle. rewrite length_insert in Hle.
    split; [|split; [exact Hle | exact Ha]].
    rewrite N2. unfold added. simpl. lia. }
  intros Hnew Hnd. rewrite map_app. simpl.
  apply NoDup_app. split; [exact Hnd|]. split.
  - intros i Hin Hin'. apply list_elem_of_singleton in Hin'. subst i.
    apply list_elem_of_fmap in Hin as (prj & Heq & Hin).
    rewrite Forall_forall in Hnew. now apply (Hnew prj Hin).
  - apply NoDup_singleton.
Qed.

(** The first lines of a session: the form is empty, the lists are empty. *)
Lemma addProject_appends_and_notifies_witness :
  exists w' snaps,
    addProject (Finite 5 (-1)) (str "Build API")
      (str "Design and build a REST API") (ofZ 3) init = Some w'
    /\ readProjects w' (projects w') =
       Some [Project.mk (str "0.5") (str "Build API")
               (str "Design and build a REST API") (ofZ 3) Active]
    /\ log w' = zip_with Notified [ListListener active; ListListener finished] snaps.
Proof.
  destruct (addProject_appends_and_notifies (Finite 5 (-1)) (str "Build API")
              (str "Design and build a REST API") (ofZ 3) init [] []
              eq_refl eq_refl)
    as (w' & snaps & H1 & _ & _ & _ & H2 & _ & H3 & _).
  exists w', snaps. auto.
Defined.

(** C1, as stated, fails: when [Math.random()] returns the same number
    twice, the second project gets the id of the first. *)
Lemma addProject_can_repeat_an_id :
  exists w1 w2 prj1 prj2,
    addProject (Finite 5 (-1)) (str "First") (str "first project") (ofZ 2) init
    = Some w1
    /\ addProject (Finite 5 (-1)) (str "Second") (str "second project") (ofZ 3) w1
       = Some w2
    /\ readProjects w2 (projects w2) = Some [prj1; prj2]
    /\ Project.id prj1 = Project.id prj2.
Proof.
  do 4 eexists. split; [vm_compute; reflexivity|].
  split; [vm_compute; reflexivity|].
  split; [vm_compute; reflexivity|]. reflexivity.
Qed.

(** C2: [moveProject] with an id that no project has, or with the status
    that the first project with that id already has, returns the state it
    was given: the heaps, the store's array and the log of listener calls are
    the same, so nothing changed and no listener ran. *)
Theorem moveProject_noop projectId newStatus w ps :
  readProjects w (projects w) = Some ps ->
  Forall (fun prj => Project.id prj <> projectId) ps
  \/ (exists pre prj post,
        ps = pre ++ prj :: post
        /\ Forall (fun q => Project.id q <> projectId) pre
        /\ Project.id prj = projectId
        /\ Project.status prj = newStatus) ->
  moveProject projectId newStatus w = Some w.
Proof.
  unfold readProjects. intros Hread Hcase.
  destruct (arrayHeap w !! projects w) as [items|] eqn:Hi; [|discriminate].
  simpl in Hread.
  destruct Hcase as [Hall|(pre & prj & post & -> & Hpre & Hid & <-)].
  - eapply moveProject_unknown; eauto.
  - eapply moveProject_same_status; eauto.
Qed.

(** C6: when the first project with the id has another status,
    [moveProject] overwrites the status of that one object and nothing else:
    the store's array holds the same references in the same order, the
    project read at that position differs from the old one in its status
    only, and the projects before and after it are the same. *)
Theorem moveProject_changes_status_only
    projectId newStatus w items pre prj post :
  arrayHeap w !! projects w = Some items ->
  NoDup items ->
  readAll (projectHeap w) items = Some (pre ++ prj :: post) ->
  Forall (fun q => Project.id q <> projectId) pre ->
  Project.id prj = projectId ->
  Project.status prj <> newStatus ->
  exists w' a,
    moveProject projectId newStatus w = Some w'
    /\ items !! length pre = Some a
    /\ projectHeap w' = <[a := Project.set_status prj newStatus]> (projectHeap w)
    /\ projects w' = projects w
    /\ arrayHeap w' !! projects w' = Some items
    /\ readProjects w' (projects w') =
       Some (pre ++ Project.set_status prj newStatus :: post)
    /\ Project.id (Project.set_status prj newStatus) = Project.id prj
    /\ Project.title (Project.set_status prj newStatus) = Project.title prj
    /\ Project.description (Project.set_status prj newStatus)
       = Project.description prj
    /\ Project.people (Project.set_status prj newStatus) = Project.people prj
    /\ Project.status (Project.set_status prj newStatus) = newStatus.
Proof.
  intros Hi Hnd Hps Hpre Hid Hst.
  destruct (moveProject_run _ _ _ _ _ _ _ Hi Hnd Hps Hpre Hid Hst)
    as (a & w' & snaps & Ha & Hprj & Hrun
        & [N1 N2 N3 N4 [extra N5] N6 N7 N8 N9 _ _]).
  assert (Hstore : arrayHeap w' !! projects w' = Some items).
  { rewrite N2, N5. unfold moved. simpl. now apply lookup_app_l_Some. }
  exists w', a. split; [exact Hrun|]. split; [exact Ha|].
  split; [exact N1|]. split; [exact N2|]. split; [exact Hstore|].
  split; [|repeat split].
  unfold readProjects. rewrite Hstore. simpl. rewrite N1. unfold moved. simpl.
  rewrite (readAll_insert _ _ _ _ _ _ Hnd Hps Ha).
  now rewrite insert_first_match.
Qed.

Lemma moveProject_noop_witness :
  moveProject (str "0.5") Finished init = Some init
  /\ moveProject (str "0.5") Active oneProject = Some oneProject.
Proof.
  split.
  - apply (moveProject_noop (str "0.5") Finished init []);
      [reflexivity | left; constructor].
  - apply (moveProject_noop (str "0.5") Active oneProject
             [Project.mk (str "0.5") (str "Build API")
                (str "Design and build a REST API") (ofZ 3) Active]);
      [reflexivity|].
    right. eexists [], _, []. repeat split. constructor.
Defined.

Lemma moveProject_changes_status_only_witness :
  exists w',
    moveProject (str "0.5") Finished oneProject = Some w'
    /\ readProjects w' (projects w') =
       Some [Project.mk (str "0.5") (str "Build API")
               (str "Design and build a REST API") (ofZ 3) Finished].
Proof.
  destruct (moveProject_changes_status_only (str "0.5") Finished oneProject
              [0%nat] []
              (Project.mk (str "0.5") (str "Build API")
                 (str "Design and build a REST API") (ofZ 3) Active) [])
    as (w' & a & Hrun & _ & _ & _ & _ & Hread & _).
  - reflexivity.
  - apply NoDup_singleton.
  - reflexivity.
  - constructor.
  - reflexivity.
  - discriminate.
  - exists w'. split; [exact Hrun | exact Hread].
Defined.

(** ** What a list shows *)

Lemma relevant_statusOf this prj :
  relevant this prj = ProjectStatus_eqb (Project.status prj) (statusOf this).
Proof. now destruct this. Qed.

Lemma filter_sublist {A} (f : A -> bool) (l : list A) :
  sublist (List.filter f l) l.
Proof.
  induction l as [|x l IH]; simpl; [constructor|].
  destruct (f x); now constructor.
Qed.

Lemma displays_shows this items ps w :
  readAll (projectHeap w) items = Some ps ->
  displays this items ps w -> shows this items ps w.
Proof.
  intros Hps [Ha Hl].
  pose proof (keptOf_read _ this _ _ Hps) as Hk.
  rewrite (List.filter_ext _ _ (relevant_statusOf this)) in Hk, Hl.
  exists (keptOf (projectHeap w) this items).
  split; [exact Ha|]. split; [exact Hk|]. split; [exact Hl|].
  split.
  { rewrite Hl, length_zip_with. apply readAll_length in Hk. lia. }
  split; [apply filter_sublist|].
  intros Hnd. exact (sublist_NoDup _ _ Hnd (filter_sublist _ _)).
Qed.

(** C7: a listener call with an array holding the references [items], whose
    projects are [ps], leaves its list showing exactly the projects of [ps]
    that have the status of the list, in the order of [ps], each once; and
    after [updateListeners] this holds for every list whose listener is
    registered, for the projects of the store. *)
Theorem notification_shows_filtered w items ps :
  arrayHeap w !! projects w = Some items ->
  readAll (projectHeap w) items = Some ps ->
  (forall this snapshot,
      arrayHeap w !! snapshot = Some items ->
      exists w', callListener (ListListener this) snapshot w = Some w'
                 /\ shows this items ps w')
  /\ exists w', updateListeners w = Some w'
                /\ forall this, In (ListListener this) (listeners w) ->
                                shows this items ps w'.
Proof.
  intros Hi Hps. split.
  - intros this snapshot Hs. exists (called this items ps w).
    split; [now apply callListener_called|].
    apply displays_shows; [now destruct this|apply called_displays].
  - destruct (updateListeners_notified w items ps Hi Hps)
      as (w' & snaps & Hrun & [N1 _ _ _ _ _ _ _ _ N10 _]).
    exists w'. split; [exact Hrun|].
    intros this Hin. apply displays_shows; [now rewrite N1|].
    apply N10. now left.
Qed.

Lemma notification_shows_filtered_witness :
  exists w', updateListeners oneProject = Some w'
             /\ shows active [0%nat]
                  [Project.mk (str "0.5") (str "Build API")
                     (str "Design and build a REST API") (ofZ 3) Active] w'
             /\ shows finished [0%nat]
                  [Project.mk (str "0.5") (str "Build API")
                     (str "Design and build a REST API") (ofZ 3) Active] w'.
Proof.
  destruct (notification_shows_filtered oneProject [0%nat]
              [Project.mk (str "0.5") (str "Build API")
                 (str "Design and build a REST API") (ofZ 3) Active]
              eq_refl eq_refl) as [_ (w' & Hrun & Hshow)].
  exists w'. split; [exact Hrun|].
  split; apply Hshow; simpl; auto.
Defined.

(** ** Snapshots over time *)

Lemma sameButStatus_refl prj : sameButStatus prj prj.
Proof. repeat split. Qed.

Lemma keeps_refl w : keeps w w.
Proof.
  constructor; auto. intros b prj H. exists prj. split; [exact H|].
  apply sameButStatus_refl.
Qed.

Lemma keeps_trans w1 w2 w3 : keeps w1 w2 -> keeps w2 w3 -> keeps w1 w3.
Proof.
  intros [P1 A1 F1] [P2 A2 F2]. constructor.
  - congruence.
  - intros a arr Hne Ha. apply A2; [congruence|]. now apply A1.
  - intros b prj Hb. destruct (F1 b prj Hb) as (prj1 & Hb1 & S1).
    destruct (F2 b prj1 Hb1) as (prj2 & Hb2 & S2).
    exists prj2. split; [exact Hb2|].
    destruct S1 as (?&?&?&?), S2 as (?&?&?&?). repeat split; congruence.
Qed.

Lemma delivered_none w : delivered [] [] w w.
Proof.
  split; [simpl; now rewrite app_nil_r|]. split; [reflexivity|constructor].
Qed.

Lemma notified_delivered ls items ps w0 w w' snaps :
  log w = log w0 ->
  arrayHeap w !! projects w = Some items ->
  notified ls items ps w w' snaps ->
  delivered ls snaps w0 w'.
Proof.
  intros Hlog Hi [N1 N2 N3 N4 [extra N5] N6 N7 N8 N9 _ _].
  split; [now rewrite N6, Hlog|]. split; [exact N7|].
  eapply Forall_impl; [exact N8|]. intros a [Hle Ha].
  split.
  - rewrite N2. apply lookup_lt_Some in Hi. lia.
  - exists items. split; [exact Ha|].
    rewrite N2, N5. now apply lookup_app_l_Some.
Qed.

Lemma addProject_frame random title description numOfPeople w :
  wf w ->
  exists w' snaps,
    addProject random title description numOfPeople w = Some w'
    /\ wf w' /\ keeps w w' /\ delivered (listeners w) snaps w w'.
Proof.
  intros (items & Hi & Hnd & Hv).
  destruct (readAll_total _ _ Hv) as [ps Hps].
  destruct (addProject_run random title description numOfPeople w items ps Hi Hps)
    as (w' & snaps & Hrun & N).
  assert (Hlt : (projects w < length (arrayHeap w))%nat)
    by (apply lookup_lt_is_Some; eauto).
  assert (Hstore : arrayHeap (added random title description numOfPeople items w)
                     !! projects w = Some (items ++ [length (projectHeap w)])).
  { unfold added. simpl. now apply list_lookup_insert_eq. }
  exists w', snaps. split; [exact Hrun|].
  split; [|split].
  - destruct N as [N1 N2 _ _ [extra N5] _ _ _ _ _ _].
    exists (items ++ [length (projectHeap w)]). split; [|split].
    + rewrite N2, N5. now apply lookup_app_l_Some.
    + apply NoDup_app. split; [exact Hnd|]. split; [|apply NoDup_singleton].
      intros a Hin Hin'. apply list_elem_of_singleton in Hin'. subst a.
      rewrite Forall_forall in Hv. apply Hv in Hin. lia.
    + rewrite N1. unfold added. simpl. rewrite length_app. simpl.
      apply Forall_app. split.
      * eapply Forall_impl; [exact Hv|]. simpl. intros; lia.
      * constructor; [lia|constructor].
  - destruct N as [N1 N2 _ _ [extra N5] _ _ _ _ _ _]. constructor.
    + exact N2.
    + intros a arr Hne Ha. rewrite N5. apply lookup_app_l_Some.
      unfold added. simpl. now rewrite list_lookup_insert_ne by congruence.
    + intros b prj Hb. exists prj. split; [|apply sameButStatus_refl].
      rewrite N1. unfold added. simpl. now apply lookup_app_l_Some.
  - eapply notified_delivered; [| |exact N]; [reflexivity|exact Hstore].
Qed.

Lemma moveProject_frame projectId newStatus w :
  wf w ->
  exists w' ls snaps,
    moveProject projectId newStatus w = Some w'
    /\ wf w' /\ keeps w w' /\ delivered ls snaps w w'.
Proof.
  intros Hwf. pose proof Hwf as (items & Hi & Hnd & Hv).
  destruct (readAll_total _ _ Hv) as [ps Hps].
  destruct (first_match_cases projectId ps)
    as [Hall|(pre & prj & post & -> & Hpre & Hid)].
  { exists w, [], []. split; [eapply moveProject_unknown; eauto|].
    split; [exact Hwf|]. split; [apply keeps_refl|apply delivered_none]. }
  destruct (ProjectStatus_eqb (Project.status prj) newStatus) eqn:E.
  { apply ProjectStatus_eqb_eq in E. subst newStatus.
    exists w, [], []. split; [eapply moveProject_same_status; eauto|].
    split; [exact Hwf|]. split; [apply keeps_refl|apply delivered_none]. }
  assert (Hst : Project.status prj <> newStatus).
  { intros Heq. apply ProjectStatus_eqb_eq in Heq. congruence. }
  destruct (moveProject_run _ _ _ _ _ _ _ Hi Hnd Hps Hpre Hid Hst)
    as (a & w' & snaps & Ha & Hprj & Hrun & N).
  exists w', (listeners w), snaps. split; [exact Hrun|].
  split; [|split].
  - destruct N as [N1 N2 _ _ [extra N5] _ _ _ _ _ _].
    exists items. split; [|split].
    + rewrite N2, N5. unfold moved. simpl. now apply lookup_app_l_Some.
    + exact Hnd.
    + rewrite N1. unfold moved. simpl. now rewrite length_insert.
  - destruct N as [N1 N2 _ _ [extra N5] _ _ _ _ _ _]. constructor.
    + exact N2.
    + intros b arr Hne Hb. rewrite N5. unfold moved. simpl.
      now apply lookup_app_l_Some.
    + intros b q Hb. rewrite N1. unfold moved. simpl.
      destruct (decide (b = a)) as [->|Hne].
      * exists (Project.set_status prj newStatus).
        split; [apply list_lookup_insert_eq; now apply lookup_lt_Some in Hb|].
        assert (q = prj) by congruence. subst q. repeat split.
      * exists q. split; [|apply sameButStatus_refl].
        now rewrite list_lookup_insert_ne by congruence.
  - eapply notified_delivered; [| |exact N]; [reflexivity|exact Hi].
Qed.

Lemma runOp_frame op w :
  wf w ->
  exists w' ls snaps,
    runOp op w = Some w' /\ wf w' /\ keeps w w' /\ delivered ls snaps w w'
    /\ (forall random title description n,
          op = AddProject random title description n -> ls = listeners w).
Proof.
  intros Hwf. destruct op as [random title description n|projectId s|l]; simpl.
  - destruct (addProject_frame random title description n w Hwf)
      as (w' & snaps & H1 & H2 & H3 & H4).
    exists w', (listeners w), snaps. auto 6.
  - destruct (moveProject_frame projectId s w Hwf)
      as (w' & ls & snaps & H1 & H2 & H3 & H4).
    exists w', ls, snaps. repeat (split; [assumption|]). discriminate.
  - exists (addListener l w), [], []. split; [reflexivity|].
    split; [exact Hwf|]. split; [|split; [|discriminate]].
    + destruct (keeps_refl w) as [K1 K2 K3]. constructor; assumption.
    + destruct (delivered_none w) as (D1 & D2 & D3).
      split; [exact D1|]. split; [exact D2|exact D3].
Qed.

Lemma runOps_frame ops :
  forall w, wf w -> exists w', runOps ops w = Some w' /\ wf w' /\ keeps w w'.
Proof.
  induction ops as [|op ops IH]; intros w Hwf.
  - exists w. split; [reflexivity|]. split; [exact Hwf|apply keeps_refl].
  - destruct (runOp_frame op w Hwf) as (w1 & ls & snaps & Hrun & Hwf1 & K1 & _).
    destruct (IH w1 Hwf1) as (w2 & Hrun2 & Hwf2 & K2).
    exists w2. split; [simpl; rewrite Hrun; exact Hrun2|].
    split; [exact Hwf2|]. eapply keeps_trans; eauto.
Qed.

(** C8 (as amended): the array handed to a listener ([addProject] hands one
    to every registered listener) is a new array that holds the references
    the store's array holds at that moment, a shallow copy.  Whatever store operations follow, that array keeps the same
    references in the same order, and the projects they point to keep their
    id, title, description and people; the project objects are the store's
    own, so their status is the store's current one. *)
Theorem snapshot_is_shallow_copy op ops w :
  wf w ->
  exists w1 w2 ls snaps,
    runOp op w = Some w1
    /\ runOps ops w1 = Some w2
    /\ log w1 = log w ++ zip_with Notified ls snaps
    /\ length snaps = length ls
    /\ (forall random title description n,
          op = AddProject random title description n -> ls = listeners w)
    /\ Forall
         (fun a =>
            a <> projects w1
            /\ exists S,
                arrayHeap w1 !! a = Some S
                /\ arrayHeap w1 !! projects w1 = Some S
                /\ arrayHeap w2 !! a = Some S
                /\ Forall
                     (fun b =>
                        exists prj prj',
                          projectHeap w1 !! b = Some prj
                          /\ projectHeap w2 !! b = Some prj'
                          /\ sameButStatus prj prj') S)
         snaps.
Proof.
  intros Hwf.
  destruct (runOp_frame op w Hwf)
    as (w1 & ls & snaps & Hrun & Hwf1 & _ & (Hlog & Hlen & Hsnaps) & Hls).
  destruct (runOps_frame ops w1 Hwf1) as (w2 & Hrun2 & _ & [_ KA KF]).
  exists w1, w2, ls, snaps.
  split; [exact Hrun|]. split; [exact Hrun2|]. split; [exact Hlog|].
  split; [exact Hlen|]. split; [exact Hls|].
  eapply Forall_impl; [exact Hsnaps|]. intros a (Hne & S & Ha & Hs).
  split; [exact Hne|]. exists S.
  split; [exact Ha|]. split; [exact Hs|]. split; [now apply KA|].
  destruct Hwf1 as (items & Hi & _ & Hv).
  assert (S = items) by congruence. subst S.
  eapply Forall_impl; [exact Hv|]. intros b Hb.
  apply lookup_lt_is_Some in Hb as [prj Hb].
  destruct (KF b prj Hb) as (prj' & Hb' & Hsame). eauto.
Qed.

Lemma snapshot_is_shallow_copy_witness :
  exists w1 w2 ls snaps,
    runOp (AddProject (Finite 5 (-1)) (str "Build API")
             (str "Design and build a REST API") (ofZ 3)) init = Some w1
    /\ runOps [MoveProject (str "0.5") Finished] w1 = Some w2
    /\ log w1 = log init ++ zip_with Notified ls snaps
    /\ length snaps = length ls
    /\ ls = listeners init.
Proof.
  destruct (snapshot_is_shallow_copy
              (AddProject (Finite 5 (-1)) (str "Build API")
                 (str "Design and build a REST API") (ofZ 3))
              [MoveProject (str "0.5") Finished] init wf_init)
    as (w1 & w2 & ls & snaps & H1 & H2 & H3 & H4 & H5 & _).
  exists w1, w2, ls, snaps.
  repeat (split; [assumption|]). eapply H5. reflexivity.
Defined.

(** C8, as stated, fails: the snapshot handed out by [addProject] shows the
    project as Active; after a later [moveProject] the same snapshot shows
    it as Finished. *)
Lemma delivered_snapshot_follows_later_move :
  exists w1 w2 snapshot prj,
    addProject (Finite 5 (-1)) (str "Build API")
      (str "Design and build a REST API") (ofZ 3) init = Some w1
    /\ In (Notified (ListListener active) snapshot) (log w1)
    /\ readProjects w1 snapshot = Some [prj]
    /\ Project.status prj = Active
    /\ moveProject (Project.id prj) Finished w1 = Some w2
    /\ readProjects w2 snapshot = Some [Project.set_status prj Finished]
    /\ readProjects w2 snapshot <> readProjects w1 snapshot.
Proof.
  exists oneProject.
  eexists. exists 3%nat. eexists.
  split; [vm_compute; reflexivity|].
  split; [left; reflexivity|].
  split; [vm_compute; reflexivity|].
  split; [reflexivity|].
  split; [vm_compute; reflexivity|].
  split; [vm_compute; reflexivity|].
  vm_compute. discriminate.
Qed.

(** ** The example of the specification *)

Lemma num_strict_eq_ofZ a b : num_strict_eq (ofZ a) (ofZ b) = (a =? b).
Proof.
  unfold num_strict_eq, ofZ, Finite_compare, scale. simpl.
  rewrite !Z.mul_1_r.
  destruct (Z.compare_spec a b), (Z.eqb_spec a b); try lia; reflexivity.
Qed.

(** C9: one project added to the empty board and then moved to Finished,
    whatever id it drew.  The finished list holds that project alone, shown
    with the title "Build API" and "3 persons assigned"; the active list
    holds nothing.  A count of 1 prints as "1 person", any other integer [z]
    as its decimal string followed by " persons". *)
Theorem build_api_example random :
  exists w1 w2 prj,
    addProject random (str "Build API") (str "Design and build a REST API")
      (ofZ 3) init = Some w1
    /\ readProjects w1 (projects w1) = Some [prj]
    /\ moveProject (Project.id prj) Finished w1 = Some w2
    /\ listEl (finishedPrjList w2) =
       [mkItem 0%nat (str "Build API") (str "3 persons assigned")
          (str "Design and build a REST API")]
    /\ readProjects w2 (assignedProjects (finishedPrjList w2)) =
       Some [Project.set_status prj Finished]
    /\ listEl (activePrjList w2) = []
    /\ readProjects w2 (assignedProjects (activePrjList w2)) = Some []
    /\ (forall i t d s, persons (Project.mk i t d (ofZ 1) s) = str "1 person")
    /\ (forall i t d s z,
          z <> 1 ->
          persons (Project.mk i t d (ofZ z) s) =
          Number_toString (ofZ z) ++ str " persons")
    /\ (forall i t d s, persons (Project.mk i t d (ofZ 2) s) = str "2 persons").
Proof.
  unfold addProject, moveProject.
  generalize (Number_toString random). intros newId.
  eexists. eexists. eexists.
  split; [reflexivity|].
  split; [reflexivity|].
  split.
  { cbn. rewrite jsstring_eqb_refl. reflexivity. }
  split; [reflexivity|]. split; [reflexivity|].
  split; [reflexivity|]. split; [reflexivity|].
  split; [reflexivity|].
  split; [|reflexivity].
  intros i t d s z Hz. unfold persons. simpl Project.people.
  rewrite num_strict_eq_ofZ.
  now destruct (Z.eqb_spec z 1).
Qed.

(** ** Submitting the form *)

Section Submit.

Variable ToNumber : jsstring -> number.

(** When one of the three checks fails, [submitHandler] alerts, leaves the
    store alone and empties the three fields. *)
Lemma submitHandler_invalid random w :
  validate (titleValidatable (titleInputElement (prjInput w)))
  && validate (descriptionValidatable (descriptionInputElement (prjInput w)))
  && validate (peopleValidatable (ToNumber (peopleInputElement (prjInput w))))
  = false ->
  submitHandler ToNumber random w =
  Some (clearInputs (emit (Alert (str "Invalid input, please try again")) w)).
Proof.
  intros H. unfold submitHandler, gatherUserInput.
  destruct (validate (titleValidatable _)); simpl in *.
  - destruct (validate (descriptionValidatable _)); simpl in *.
    + rewrite H. reflexivity.
    + reflexivity.
  - reflexivity.
Qed.

(** Whenever [submitHandler] returns, the three fields are empty. *)
Lemma submitHandler_clears random w w' :
  submitHandler ToNumber random w = Some w' ->
  prjInput w' = mkInput [] [] [].
Proof.
  unfold submitHandler. destruct (gatherUserInput ToNumber w) as [[[[t d] n]|] w1].
  - destruct (addProject random t d n w1); simpl; [|discriminate].
    now intros [= <-].
  - simpl. now intros [= <-].
Qed.

End Submit.

(** C3, on the code: a title and a people count that would pass, with a
    description of three letters.  The submit alerts and leaves the store as
    it was, but the three fields come back empty instead of keeping what was
    entered. *)
Theorem submit_invalid_empties_fields ToNumber random :
  exists w',
    submitHandler ToNumber random
      (set_prjInput (mkInput (str "Build API") (str "abc") (str "3")) init)
    = Some w'
    /\ log w' = [Alert (str "Invalid input, please try again")]
    /\ projectHeap w' = projectHeap init
    /\ arrayHeap w' = arrayHeap init
    /\ projects w' = projects init
    /\ prjInput w' = mkInput [] [] []
    /\ prjInput w' <> mkInput (str "Build API") (str "abc") (str "3").
Proof.
  eexists. split.
  - apply submitHandler_invalid. reflexivity.
  - repeat split. discriminate.
Qed.

(** * Further properties of the code *)

(** ** The checks of the form *)

Lemma trimStart_blank s : hasInk s = false -> trimStart s = [].
Proof.
  induction s as [|c s IH]; simpl; [reflexivity|].
  destruct (isWhiteSpace c); simpl; [exact IH | discriminate].
Qed.

Lemma trim_length s : Nat.eqb (length (trim s)) 0 = negb (hasInk s).
Proof.
  destruct (hasInk s) eqn:H.
  - now apply trim_length_ink.
  - unfold trim. now rewrite (trimStart_blank _ H).
Qed.

Lemma hasInk_exists s :
  hasInk s = true <-> exists c, In c s /\ isWhiteSpace c = false.
Proof.
  unfold hasInk. rewrite existsb_exists.
  split; intros (c & Hin & Hc); exists c; split; auto.
  - now apply negb_true_iff in Hc.
  - now apply negb_true_iff.
Qed.

Lemma validate_title s : validate (titleValidatable s) = hasInk s.
Proof.
  unfold titleValidatable. rewrite validate_string.
  cbv beta iota delta [truthy].
  rewrite trim_length, negb_involutive. now rewrite !andb_true_r.
Qed.

Lemma validate_description s :
  validate (descriptionValidatable s) = hasInk s && (5 <? Z.of_nat (length s)).
Proof.
  unfold descriptionValidatable. rewrite validate_string.
  cbv beta iota delta [truthy].
  rewrite trim_length, negb_involutive, andb_true_r.
  unfold num_gt, ofNat. now rewrite num_lt_ofZ.
Qed.

Lemma validate_people n :
  validate (peopleValidatable n) = num_lt (ofZ 1) n && num_lt n (ofZ 5).
Proof. unfold peopleValidatable. now rewrite validate_number. Qed.

(** The title check passes exactly when the title has a code unit that is not
    white space: the empty title and a title of blanks only are refused, and
    so is nothing else. *)
Theorem title_needs_ink s :
  validate (titleValidatable s) = true <->
  exists c, In c s /\ isWhiteSpace c = false.
Proof. now rewrite validate_title, hasInk_exists. Qed.

(** The description check passes exactly when the description is not blank
    and has more than five code units.  The length is that of the text as
    entered, not of the trimmed text: one letter followed by five blanks
    passes. *)
Theorem description_needs_ink_and_length :
  (forall s, validate (descriptionValidatable s) = true <->
             (exists c, In c s /\ isWhiteSpace c = false)
             /\ (5 < length s)%nat)
  /\ validate (descriptionValidatable (str "a     ")) = true
  /\ length (trim (str "a     ")) = 1%nat.
Proof.
  split; [|split; reflexivity].
  intros s. rewrite validate_description, andb_true_iff, hasInk_exists.
  rewrite Z.ltb_lt. split; intros [H1 H2]; split; auto; lia.
Qed.

Lemma acceptable_validate title description people :
  acceptable title description people <->
  validate (titleValidatable title)
  && validate (descriptionValidatable description)
  && validate (peopleValidatable people) = true.
Proof.
  unfold acceptable.
  rewrite validate_title, validate_description, validate_people.
  rewrite !andb_true_iff, Z.ltb_lt. intuition lia.
Qed.

Section Form.

Variable ToNumber : jsstring -> number.

(** [gatherUserInput] hands back the three entered values, the people field
    converted, exactly when they are acceptable, and then it does nothing
    else; otherwise it hands back nothing and the one thing it does is the
    alert. *)
Theorem gatherUserInput_accepts w :
  (acceptable (titleInputElement (prjInput w))
     (descriptionInputElement (prjInput w))
     (ToNumber (peopleInputElement (prjInput w))) ->
   gatherUserInput ToNumber w =
   (Some (titleInputElement (prjInput w),
          descriptionInputElement (prjInput w),
          ToNumber (peopleInputElement (prjInput w))), w))
  /\ (~ acceptable (titleInputElement (prjInput w))
        (descriptionInputElement (prjInput w))
        (ToNumber (peopleInputElement (prjInput w))) ->
      gatherUserInput ToNumber w =
      (None, emit (Alert (str "Invalid input, please try again")) w)).
Proof.
  rewrite acceptable_validate. unfold gatherUserInput.
  destruct (validate (titleValidatable _));
    destruct (validate (descriptionValidatable _));
    destruct (validate (peopleValidatable _)); simpl;
    split; intros H; try reflexivity; try discriminate;
    exfalso; apply H; reflexivity.
Qed.

Lemma gatherUserInput_valid w :
  acceptable (titleInputElement (prjInput w))
    (descriptionInputElement (prjInput w))
    (ToNumber (peopleInputElement (prjInput w))) ->
  gatherUserInput ToNumber w =
  (Some (titleInputElement (prjInput w),
         descriptionInputElement (prjInput w),
         ToNumber (peopleInputElement (prjInput w))), w).
Proof.
  rewrite acceptable_validate. unfold gatherUserInput.
  intros H. apply andb_prop in H as [H H3]. apply andb_prop in H as [H1 H2].
  now rewrite H1, H2, H3.
Qed.

Lemma gatherUserInput_invalid w :
  ~ acceptable (titleInputElement (prjInput w))
      (descriptionInputElement (prjInput w))
      (ToNumber (peopleInputElement (prjInput w))) ->
  gatherUserInput ToNumber w =
  (None, emit (Alert (str "Invalid input, please try again")) w).
Proof.
  rewrite acceptable_validate. unfold gatherUserInput.
  destruct (validate (titleValidatable _));
    destruct (validate (descriptionValidatable _));
    destruct (validate (peopleValidatable _)); simpl;
    intros H; try reflexivity; exfalso; apply H; reflexivity.
Qed.

Lemma acceptable_dec title description people :
  {acceptable title description people}
  + {~ acceptable title description people}.
Proof.
  destruct (validate (titleValidatable title)
            && validate (descriptionValidatable description)
            && validate (peopleValidatable people)) eqn:E.
  - left. now apply acceptable_validate.
  - right. intros H. apply acceptable_validate in H. congruence.
Qed.

(** A submit of acceptable fields adds one project to the store, Active, with
    the entered title and description and the converted people count; the
    listeners are notified, no alert is raised and the three fields are
    emptied. *)
Theorem submitHandler_valid random w items ps :
  arrayHeap w !! projects w = Some items ->
  readAll (projectHeap w) items = Some ps ->
  acceptable (titleInputElement (prjInput w))
    (descriptionInputElement (prjInput w))
    (ToNumber (peopleInputElement (prjInput w))) ->
  exists w' snaps,
    submitHandler ToNumber random w = Some w'
    /\ readProjects w' (projects w') =
       Some (ps ++ [Project.mk (Number_toString random)
                      (titleInputElement (prjInput w))
                      (descriptionInputElement (prjInput w))
                      (ToNumber (peopleInputElement (prjInput w))) Active])
    /\ log w' = log w ++ zip_with Notified (listeners w) snaps
    /\ length snaps = length (listeners w)
    /\ prjInput w' = mkInput [] [] [].
Proof.
  intros Hi Hps Hok.
  destruct (addProject_run random (titleInputElement (prjInput w))
              (descriptionInputElement (prjInput w))
              (ToNumber (peopleInputElement (prjInput w))) w items ps Hi Hps)
    as (w1 & snaps & Hrun & [N1 N2 N3 N4 [extra N5] N6 N7 _ _ _ _]).
  exists (clearInputs (clearInputs w1)), snaps.
  split.
  { unfold submitHandler. rewrite (gatherUserInput_valid w Hok).
    rewrite Hrun. reflexivity. }
  split.
  { unfold readProjects. simpl. rewrite N2, N5, N1. unfold added. simpl.
    erewrite lookup_app_l_Some
      by (apply list_lookup_insert_eq; apply lookup_lt_is_Some; eauto).
    simpl. rewrite readAll_app, (readAll_grow _ _ _ _ Hps), readAll_last.
    reflexivity. }
  split; [exact N6|]. split; [exact N7|]. reflexivity.
Qed.

End Form.

Lemma submitHandler_valid_witness :
  exists w' snaps,
    submitHandler (fun _ => ofZ 3) (Finite 5 (-1))
      (set_prjInput
         (mkInput (str "Build API") (str "Design and build a REST API") (str "3"))
         init) = Some w'
    /\ readProjects w' (projects w') =
       Some [Project.mk (str "0.5") (str "Build API")
               (str "Design and build a REST API") (ofZ 3) Active]
    /\ log w' = zip_with Notified [ListListener active; ListListener finished] snaps
    /\ prjInput w' = mkInput [] [] [].
Proof.
  destruct (submitHandler_valid (fun _ => ofZ 3) (Finite 5 (-1))
              (set_prjInput
                 (mkInput (str "Build API") (str "Design and build a REST API")
                    (str "3")) init) [] [] eq_refl eq_refl)
    as (w' & snaps & H1 & H2 & H3 & _ & H4).
  - repeat split; reflexivity || (simpl; lia).
  - exists w', snaps. auto.
Defined.

(** ** What a notification touches *)





(** ** The two columns *)

Lemma filter_complement_perm {A} (f g : A -> bool) (l : list A) :
  Forall (fun x => g x = negb (f x)) l ->
  Permutation (List.filter f l ++ List.filter g l) l.
Proof.
  induction 1 as [|x l Hx _ IH]; simpl; [constructor|].
  rewrite Hx. destruct (f x); simpl.
  - now constructor.
  - rewrite <- Permutation_middle. now constructor.
Qed.

Lemma map_project_zip kept qs :
  length kept = length qs ->
  map project (zip_with itemFor kept qs) = kept.
Proof.
  revert qs. induction kept as [|a kept IH]; intros [|q qs] H;
    simpl in *; try discriminate; [reflexivity|].
  f_equal. apply IH. lia.
Qed.

Lemma displays_projects this items ps w :
  readAll (projectHeap w) items = Some ps ->
  displays this items ps w ->
  map project (listEl (prjList this w)) = keptOf (projectHeap w) this items.
Proof.
  intros Hps [_ Hl]. rewrite Hl. apply map_project_zip.
  pose proof (keptOf_read _ this _ _ Hps) as Hk.
  apply readAll_length in Hk. lia.
Qed.

Lemma keptOf_partition heap items ps :
  readAll heap items = Some ps ->
  Permutation (keptOf heap active items ++ keptOf heap finished items) items.
Proof.
  intros Hps. apply filter_complement_perm.
  apply readAll_valid in Hps.
  eapply Forall_impl; [exact Hps|]. intros a Ha.
  apply lookup_lt_is_Some in Ha as [prj Ha].
  unfold relevantAt. rewrite Ha. simpl. now destruct (Project.status prj).
Qed.

(** After a notification with both lists registered, every project of the
    store has its item in exactly one of the two lists: the projects shown in
    the active list followed by those shown in the finished list are the
    store's projects rearranged, so none is missing and none is shown
    twice. *)
Theorem columns_partition w items ps :
  arrayHeap w !! projects w = Some items ->
  readAll (projectHeap w) items = Some ps ->
  In (ListListener active) (listeners w) ->
  In (ListListener finished) (listeners w) ->
  exists w',
    updateListeners w = Some w'
    /\ Permutation
         (map project (listEl (activePrjList w'))
          ++ map project (listEl (finishedPrjList w')))
         items
    /\ (length (listEl (activePrjList w'))
        + length (listEl (finishedPrjList w')) = length items)%nat
    /\ (NoDup items ->
        forall a, In a (map project (listEl (activePrjList w'))) ->
                  ~ In a (map project (listEl (finishedPrjList w')))).
Proof.
  intros Hi Hps HA HF.
  destruct (updateListeners_notified w items ps Hi Hps)
    as (w' & snaps & Hrun & [N1 _ _ _ _ _ _ _ _ N10 _]).
  assert (Hps' : readAll (projectHeap w') items = Some ps) by now rewrite N1.
  pose proof (displays_projects active _ _ _ Hps' (N10 active (or_introl HA))) as EA.
  pose proof (displays_projects finished _ _ _ Hps' (N10 finished (or_introl HF))) as EF.
  simpl in EA, EF.
  pose proof (keptOf_partition _ _ _ Hps') as P.
  exists w'. split; [exact Hrun|].
  rewrite EA, EF. split; [exact P|]. split.
  - rewrite <- (length_map project (listEl (activePrjList w'))).
    rewrite <- (length_map project (listEl (finishedPrjList w'))).
    rewrite EA, EF, <- length_app. now apply Permutation_length.
  - intros Hnd a HinA HinF.
    assert (Hnd' : NoDup (keptOf (projectHeap w') active items
                          ++ keptOf (projectHeap w') finished items)).
    { now rewrite P. }
    apply NoDup_app in Hnd' as (_ & Hdisj & _).
    apply (Hdisj a); now apply list_elem_of_In.
Qed.

Lemma columns_partition_witness :
  exists w',
    updateListeners oneProject = Some w'
    /\ (length (listEl (activePrjList w'))
        + length (listEl (finishedPrjList w')) = 1)%nat.
Proof.
  destruct (columns_partition oneProject [0%nat]
              [Project.mk (str "0.5") (str "Build API")
                 (str "Design and build a REST API") (ofZ 3) Active]
              eq_refl eq_refl) as (w' & H1 & _ & H2 & _).
  - left. reflexivity.
  - right. left. reflexivity.
  - exists w'. auto.
Defined.

(** ** One store call after another *)

Lemma stored_wf items ps w : stored items ps w -> wf w.
Proof.
  intros (Hi & Hnd & Hps). exists items. split; [exact Hi|].
  split; [exact Hnd|]. eapply readAll_valid; eauto.
Qed.

Lemma wf_stored w : wf w -> exists items ps, stored items ps w.
Proof.
  intros Hwf. destruct (wf_read w Hwf) as (items & ps & Hi & Hnd & Hps).
  exists items, ps. repeat split; assumption.
Qed.

Lemma notified_stored ls items ps w0 w' snaps :
  stored items ps w0 ->
  notified ls items ps w0 w' snaps ->
  stored items ps w'.
Proof.
  intros (Hi & Hnd & Hps) [N1 N2 _ _ [extra N5] _ _ _ _ _ _].
  split; [|split; [exact Hnd|now rewrite N1]].
  rewrite N2, N5. now apply lookup_app_l_Some.
Qed.

Lemma notified_synced items ps w0 w' snaps :
  stored items ps w0 ->
  (forall this, In (ListListener this) (listeners w0)) ->
  notified (listeners w0) items ps w0 w' snaps ->
  syncedWith items ps w'.
Proof.
  intros Hst Hreg N.
  destruct (notified_stored _ _ _ _ _ _ Hst N) as (Hi & Hnd & Hps).
  destruct N as [_ _ N3 _ _ _ _ _ _ N10 _].
  split; [exact Hi|]. split; [exact Hnd|]. split; [exact Hps|].
  split; [intros this; rewrite N3; apply Hreg|].
  intros this. apply N10. left. apply Hreg.
Qed.

Lemma syncedWith_stored items ps w : syncedWith items ps w -> stored items ps w.
Proof. intros (Hi & Hnd & Hps & _). repeat split; assumption. Qed.

Lemma added_stored random title description n items ps w :
  stored items ps w ->
  stored (items ++ [length (projectHeap w)])
    (ps ++ [Project.mk (Number_toString random) title description n Active])
    (added random title description n items w).
Proof.
  intros (Hi & Hnd & Hps). unfold added. split; [|split]; simpl.
  - apply list_lookup_insert_eq. apply lookup_lt_is_Some. eauto.
  - apply NoDup_app. split; [exact Hnd|]. split; [|apply NoDup_singleton].
    intros a Hin Hin'. apply list_elem_of_singleton in Hin'. subst a.
    apply readAll_valid in Hps. rewrite Forall_forall in Hps.
    apply Hps in Hin. lia.
  - now rewrite readAll_app, (readAll_grow _ _ _ _ Hps), readAll_last.
Qed.

Lemma moved_stored items pre prj post a newStatus w :
  stored items (pre ++ prj :: post) w ->
  items !! length pre = Some a ->
  stored items (pre ++ Project.set_status prj newStatus :: post)
    (moved a prj newStatus w).
Proof.
  intros (Hi & Hnd & Hps) Ha. unfold moved. split; [|split]; simpl; auto.
  rewrite (readAll_insert _ _ _ _ _ _ Hnd Hps Ha).
  now rewrite insert_first_match.
Qed.

(** The two ways [moveProject] can go. *)
Lemma moveProject_cases projectId newStatus w items ps :
  stored items ps w ->
  (moveProject projectId newStatus w = Some w
   /\ (Forall (fun prj => Project.id prj <> projectId) ps
       \/ exists pre prj post,
            ps = pre ++ prj :: post
            /\ Forall (fun q => Project.id q <> projectId) pre
            /\ Project.id prj = projectId
            /\ Project.status prj = newStatus))
  \/ exists pre prj post a w' snaps,
       ps = pre ++ prj :: post
       /\ Forall (fun q => Project.id q <> projectId) pre
       /\ Project.id prj = projectId
       /\ Project.status prj <> newStatus
       /\ items !! length pre = Some a
       /\ projectHeap w !! a = Some prj
       /\ moveProject projectId newStatus w = Some w'
       /\ notified (listeners w) items
            (pre ++ Project.set_status prj newStatus :: post)
            (moved a prj newStatus w) w' snaps.
Proof.
  intros (Hi & Hnd & Hps).
  destruct (first_match_cases projectId ps)
    as [Hall|(pre & prj & post & -> & Hpre & Hid)].
  { left. split; [eapply moveProject_unknown; eauto|now left]. }
  destruct (ProjectStatus_eqb (Project.status prj) newStatus) eqn:E.
  { apply ProjectStatus_eqb_eq in E. subst newStatus. left.
    split; [eapply moveProject_same_status; eauto|].
    right. exists pre, prj, post. auto. }
  assert (Hst : Project.status prj <> newStatus).
  { intros Heq. apply ProjectStatus_eqb_eq in Heq. congruence. }
  destruct (moveProject_run _ _ _ _ _ _ _ Hi Hnd Hps Hpre Hid Hst)
    as (a & w' & snaps & Ha & Hprj & Hrun & N).
  right. exists pre, prj, post, a, w', snaps. auto 10.
Qed.

Lemma sameButStatus_set_status prj newStatus :
  sameButStatus prj (Project.set_status prj newStatus).
Proof. repeat split. Qed.

Lemma Forall2_sameButStatus_refl ps : Forall2 sameButStatus ps ps.
Proof. induction ps; constructor; auto using sameButStatus_refl. Qed.

Lemma Forall2_sameButStatus_middle pre prj post newStatus :
  Forall2 sameButStatus (pre ++ prj :: post)
    (pre ++ Project.set_status prj newStatus :: post).
Proof.
  apply Forall2_app; [apply Forall2_sameButStatus_refl|].
  constructor; [apply sameButStatus_set_status|apply Forall2_sameButStatus_refl].
Qed.

Lemma sameButStatus_trans p q r :
  sameButStatus p q -> sameButStatus q r -> sameButStatus p r.
Proof. intros (?&?&?&?) (?&?&?&?). repeat split; congruence. Qed.

Lemma Forall2_sameButStatus_trans l1 l2 l3 :
  Forall2 sameButStatus l1 l2 -> Forall2 sameButStatus l2 l3 ->
  Forall2 sameButStatus l1 l3.
Proof.
  intros H. revert l3. induction H as [|x y l1 l2 Hxy _ IH]; intros l3 H23.
  - inversion H23. constructor.
  - inversion H23 as [|? z ? l3' Hyz Hrest]; subst.
    constructor; [eapply sameButStatus_trans; eauto|now apply IH].
Qed.

(** One call of the store from a state with [items] and [ps]. *)
Lemma runOp_stored op w items ps :
  stored items ps w ->
  exists w' items' ps',
    runOp op w = Some w'
    /\ stored items' ps' w'
    /\ items' = items ++ match op with
                         | AddProject _ _ _ _ => [length (projectHeap w)]
                         | _ => []
                         end
    /\ Forall2 sameButStatus ps (take (length ps) ps')
    /\ (forall this, In (ListListener this) (listeners w) ->
                     In (ListListener this) (listeners w'))
    /\ ((forall this, In (ListListener this) (listeners w)) ->
        (forall this, displays this items ps w) ->
        forall this, displays this items' ps' w').
Proof.
  intros Hst. destruct op as [random title description n|projectId s|l]; simpl.
  - destruct Hst as (Hi & Hnd & Hps).
    destruct (addProject_run random title description n w items ps Hi Hps)
      as (w' & snaps & Hrun & N).
    pose proof (added_stored random title description n items ps w
                  (conj Hi (conj Hnd Hps))) as Hst1.
    exists w', (items ++ [length (projectHeap w)]),
      (ps ++ [Project.mk (Number_toString random) title description n Active]).
    split; [exact Hrun|].
    split; [exact (notified_stored _ _ _ _ _ _ Hst1 N)|].
    split; [reflexivity|].
    split; [rewrite take_app_length; apply Forall2_sameButStatus_refl|].
    destruct N as [_ _ N3 _ _ _ _ _ _ N10 _].
    split; [intros this Hin; now rewrite N3|].
    intros Hreg _ this. apply N10. left. apply Hreg.
  - destruct (moveProject_cases projectId s w items ps Hst)
      as [[Hrun _]|(pre & prj & post & a & w' & snaps & -> & Hpre & Hid & Hne
                    & Ha & Hprj & Hrun & N)].
    + exists w, items, ps. split; [exact Hrun|]. split; [exact Hst|].
      split; [now rewrite app_nil_r|].
      split; [rewrite firstn_all; apply Forall2_sameButStatus_refl|].
      split; auto.
    + pose proof (moved_stored items pre prj post a s w Hst Ha) as Hst1.
      exists w', items, (pre ++ Project.set_status prj s :: post).
      split; [exact Hrun|].
      split; [exact (notified_stored _ _ _ _ _ _ Hst1 N)|].
      split; [now rewrite app_nil_r|].
      split.
      { rewrite take_ge; [apply Forall2_sameButStatus_middle|].
        rewrite !length_app. simpl. lia. }
      destruct N as [_ _ N3 _ _ _ _ _ _ N10 _].
      split; [intros this Hin; now rewrite N3|].
      intros Hreg _ this. apply N10. left. apply Hreg.
  - exists (addListener l w), items, ps. split; [reflexivity|].
    split; [exact Hst|]. split; [now rewrite app_nil_r|].
    split; [rewrite firstn_all; apply Forall2_sameButStatus_refl|].
    split.
    + intros this Hin. simpl. apply in_or_app. now left.
    + intros _ Hd this. specialize (Hd this). destruct this; exact Hd.
Qed.

Lemma runOps_stored ops :
  forall w items ps,
    stored items ps w ->
    exists w' items' ps',
      runOps ops w = Some w'
      /\ stored items' ps' w'
      /\ items `prefix_of` items'
      /\ length items' = (length items + countAdds ops)%nat
      /\ Forall2 sameButStatus ps (take (length ps) ps')
      /\ ((forall this, In (ListListener this) (listeners w)) ->
          (forall this, displays this items ps w) ->
          (forall this, In (ListListener this) (listeners w'))
          /\ forall this, displays this items' ps' w').
Proof.
  induction ops as [|op ops IH]; intros w items ps Hst.
  - exists w, items, ps. split; [reflexivity|]. split; [exact Hst|].
    split; [reflexivity|]. split; [unfold countAdds; simpl; lia|].
    split; [rewrite firstn_all; apply Forall2_sameButStatus_refl|]. auto.
  - destruct (runOp_stored op w items ps Hst)
      as (w1 & items1 & ps1 & Hrun1 & Hst1 & Hitems1 & Hsame1 & Hreg1 & Hd1).
    destruct (IH w1 items1 ps1 Hst1)
      as (w2 & items2 & ps2 & Hrun2 & Hst2 & Hpre2 & Hlen2 & Hsame2 & Hd2).
    exists w2, items2, ps2.
    split; [simpl; rewrite Hrun1; exact Hrun2|]. split; [exact Hst2|].
    split.
    { etransitivity; [|exact Hpre2]. rewrite Hitems1. now apply prefix_app_r. }
    split.
    { rewrite Hlen2, Hitems1, length_app. unfold countAdds. simpl.
      destruct op; simpl; lia. }
    split.
    { assert (Hl : (length ps <= length ps1)%nat).
      { destruct Hst as (_ & _ & Hps), Hst1 as (_ & _ & Hps1).
        apply readAll_length in Hps, Hps1. rewrite Hps, Hps1, Hitems1.
        rewrite length_app. lia. }
      apply (Forall2_take _ _ _ (length ps)) in Hsame2.
      rewrite take_take in Hsame2.
      replace (length ps `min` length ps1)%nat with (length ps) in Hsame2 by lia.
      exact (Forall2_sameButStatus_trans _ _ _ Hsame1 Hsame2). }
    intros Hreg Hd. apply Hd2.
    + intros this. apply Hreg1, Hreg.
    + now apply Hd1.
Qed.

Lemma stored_init : stored [] [] init.
Proof. repeat split. constructor. Qed.

Lemma registered_init this : In (ListListener this) (listeners init).
Proof. destruct this; simpl; auto. Qed.

Lemma displays_init this : displays this [] [] init.
Proof. destruct this; split; reflexivity. Qed.

Lemma stored_readProjects items ps w :
  stored items ps w -> readProjects w (projects w) = Some ps.
Proof. intros (Hi & _ & Hps). unfold readProjects. now rewrite Hi. Qed.

Lemma wf_readProjects_stored w ps :
  wf w -> readProjects w (projects w) = Some ps ->
  exists items, stored items ps w.
Proof.
  intros (items & Hi & Hnd & _) Hread. unfold readProjects in Hread.
  rewrite Hi in Hread. simpl in Hread. exists items. repeat split; assumption.
Qed.

(** Whatever calls the views make on the store, starting from the state the
    program sets up, every call returns, no reference is twice in the store's
    array, and each of the two lists shows exactly the store's projects of its
    status as they are now, in the store's order; the items of the two lists
    together are the store's projects, each shown once. *)
Theorem views_follow_store ops :
  exists w' items ps,
    runOps ops init = Some w'
    /\ arrayHeap w' !! projects w' = Some items
    /\ NoDup items
    /\ readProjects w' (projects w') = Some ps
    /\ length ps = countAdds ops
    /\ (forall this, shows this items ps w')
    /\ Permutation
         (map project (listEl (activePrjList w'))
          ++ map project (listEl (finishedPrjList w')))
         items.
Proof.
  destruct (runOps_stored ops init [] [] stored_init)
    as (w' & items & ps & Hrun & Hst & _ & Hlen & _ & Hd).
  destruct (Hd registered_init displays_init) as [_ Hdis].
  pose proof Hst as (Hi & Hnd & Hps).
  exists w', items, ps. split; [exact Hrun|]. split; [exact Hi|].
  split; [exact Hnd|]. split; [exact (stored_readProjects _ _ _ Hst)|].
  split; [apply readAll_length in Hps; simpl in Hlen; lia|].
  split; [intros this; apply displays_shows; auto|].
  pose proof (displays_projects active _ _ _ Hps (Hdis active)) as EA.
  pose proof (displays_projects finished _ _ _ Hps (Hdis finished)) as EF.
  simpl in EA, EF. rewrite EA, EF. exact (keptOf_partition _ _ _ Hps).
Qed.

(** The store never removes a project and never reorders: after any calls
    the references it held are still the first ones of its array, in the same
    order, the projects behind them differ in their status at most, and it
    holds one more project for each [addProject] among the calls. *)
Theorem store_only_grows ops w ps :
  wf w ->
  readProjects w (projects w) = Some ps ->
  exists w' items items' ps',
    arrayHeap w !! projects w = Some items
    /\ runOps ops w = Some w'
    /\ arrayHeap w' !! projects w' = Some items'
    /\ readProjects w' (projects w') = Some ps'
    /\ items `prefix_of` items'
    /\ length ps' = (length ps + countAdds ops)%nat
    /\ Forall2 sameButStatus ps (take (length ps) ps').
Proof.
  intros Hwf Hread.
  destruct (wf_readProjects_stored w ps Hwf Hread) as [items Hst].
  destruct (runOps_stored ops w items ps Hst)
    as (w' & items' & ps' & Hrun & Hst' & Hpre & Hlen & Hsame & _).
  exists w', items, items', ps'.
  split; [apply Hst|]. split; [exact Hrun|]. split; [apply Hst'|].
  split; [exact (stored_readProjects _ _ _ Hst')|]. split; [exact Hpre|].
  split; [|exact Hsame].
  destruct Hst as (_ & _ & Hps), Hst' as (_ & _ & Hps').
  apply readAll_length in Hps, Hps'. lia.
Qed.

Lemma store_only_grows_witness :
  exists w' ps',
    runOps [MoveProject (str "0.5") Finished;
            AddProject (Finite 25 (-2)) (str "Tests") (str "Write the tests")
              (ofZ 2)] oneProject = Some w'
    /\ readProjects w' (projects w') = Some ps'
    /\ length ps' = 2%nat.
Proof.
  destruct (store_only_grows
              [MoveProject (str "0.5") Finished;
               AddProject (Finite 25 (-2)) (str "Tests") (str "Write the tests")
                 (ofZ 2)] oneProject
              [Project.mk (str "0.5") (str "Build API")
                 (str "Design and build a REST API") (ofZ 3) Active])
    as (w' & items & items' & ps' & _ & H1 & _ & H2 & _ & H3 & _).
  - exists [0%nat]. repeat split; [apply NoDup_singleton|].
    constructor; [simpl; lia|constructor].
  - reflexivity.
  - exists w', ps'. auto.
Defined.

(** Moving a project twice to the same status is the same as moving it once:
    the second call finds nothing to do and returns the state unchanged,
    without notifying. *)
Theorem moveProject_twice projectId newStatus w :
  wf w ->
  exists w1,
    moveProject projectId newStatus w = Some w1
    /\ moveProject projectId newStatus w1 = Some w1.
Proof.
  intros Hwf. destruct (wf_stored w Hwf) as (items & ps & Hst).
  destruct (moveProject_cases projectId newStatus w items ps Hst)
    as [[Hrun _]|(pre & prj & post & a & w' & snaps & -> & Hpre & Hid & Hne
                  & Ha & Hprj & Hrun & N)].
  - exists w. auto.
  - exists w'. split; [exact Hrun|].
    pose proof (moved_stored items pre prj post a newStatus w Hst Ha) as Hst1.
    destruct (notified_stored _ _ _ _ _ _ Hst1 N) as (Hi' & _ & Hps').
    exact (moveProject_same_status projectId w' items pre
             (Project.set_status prj newStatus) post Hi' Hps' Hpre Hid).
Qed.

Lemma moveProject_twice_witness :
  exists w1,
    moveProject (str "0.5") Finished oneProject = Some w1
    /\ moveProject (str "0.5") Finished w1 = Some w1.
Proof.
  apply (moveProject_twice (str "0.5") Finished oneProject).
  exists [0%nat]. repeat split; [apply NoDup_singleton|].
  constructor; [simpl; lia|constructor].
Defined.

(** [moveProject] finds the first project with the id and no other: a
    project that comes after another one with the same id is never changed by
    it, whatever the id and the status asked for. *)
Theorem moveProject_spares_later_duplicate projectId newStatus w ps i j p q :
  wf w ->
  readProjects w (projects w) = Some ps ->
  ps !! i = Some p ->
  ps !! j = Some q ->
  (i < j)%nat ->
  Project.id p = Project.id q ->
  exists w' ps',
    moveProject projectId newStatus w = Some w'
    /\ readProjects w' (projects w') = Some ps'
    /\ ps' !! j = Some q.
Proof.
  intros Hwf Hread Hi Hj Hlt Hid.
  destruct (wf_readProjects_stored w ps Hwf Hread) as [items Hst].
  destruct (moveProject_cases projectId newStatus w items ps Hst)
    as [[Hrun _]|(pre & prj & post & a & w' & snaps & -> & Hpre & Hpid & Hne
                  & Ha & Hprj & Hrun & N)].
  - exists w, ps. auto.
  - pose proof (moved_stored items pre prj post a newStatus w Hst Ha) as Hst1.
    pose proof (notified_stored _ _ _ _ _ _ Hst1 N) as Hst'.
    exists w', (pre ++ Project.set_status prj newStatus :: post).
    split; [exact Hrun|]. split; [exact (stored_readProjects _ _ _ Hst')|].
    destruct (decide (j = length pre)) as [->|Hneq].
    + exfalso. rewrite list_lookup_middle in Hj by reflexivity.
      injection Hj as <-.
      rewrite lookup_app_l in Hi by exact Hlt.
      rewrite Forall_forall in Hpre.
      apply list_elem_of_lookup_2 in Hi. apply Hpre in Hi. congruence.
    + rewrite <- (insert_first_match pre post prj).
      now rewrite list_lookup_insert_ne by congruence.
Qed.

Lemma moveProject_spares_later_duplicate_witness :
  exists w' ps',
    moveProject (str "0.5") Finished twoAlike = Some w'
    /\ readProjects w' (projects w') = Some ps'
    /\ ps' !! 1%nat =
       Some (Project.mk (str "0.5") (str "Second") (str "second project")
               (ofZ 3) Active).
Proof.
  apply (moveProject_spares_later_duplicate (str "0.5") Finished twoAlike
           [Project.mk (str "0.5") (str "First") (str "first project")
              (ofZ 2) Active;
            Project.mk (str "0.5") (str "Second") (str "second project")
              (ofZ 3) Active]
           0%nat 1%nat
           (Project.mk (str "0.5") (str "First") (str "first project")
              (ofZ 2) Active)
           (Project.mk (str "0.5") (str "Second") (str "second project")
              (ofZ 3) Active)).
  - exists [0%nat; 1%nat]. repeat split.
    + apply NoDup_cons. split; [|apply NoDup_singleton].
      intros H. apply list_elem_of_singleton in H. discriminate.
    + repeat constructor.
  - reflexivity.
  - reflexivity.
  - reflexivity.
  - lia.
  - reflexivity.
Defined.

(** ** Dropping on a list *)

Lemma keptOf_In heap this items a :
  In a (keptOf heap this items) <-> In a items /\ relevantAt heap this a = true.
Proof. apply filter_In. Qed.

(** A drop on a list of a project that has the other status moves it there:
    afterwards the project has the status of that list, the list has an item
    for it and the other list has none. *)
Theorem drop_moves_item this projId w items pre prj post :
  arrayHeap w !! projects w = Some items ->
  NoDup items ->
  readAll (projectHeap w) items = Some (pre ++ prj :: post) ->
  (forall l, In (ListListener l) (listeners w)) ->
  Forall (fun q => Project.id q <> projId) pre ->
  Project.id prj = projId ->
  Project.status prj <> statusOf this ->
  exists w' a,
    dropHandler this projId w = Some w'
    /\ items !! length pre = Some a
    /\ projectHeap w' !! a = Some (Project.set_status prj (statusOf this))
    /\ In a (map project (listEl (prjList this w')))
    /\ forall other, other <> this ->
                     ~ In a (map project (listEl (prjList other w'))).
Proof.
  intros Hi Hnd Hps Hreg Hpre Hid Hne.
  destruct (moveProject_run _ _ _ _ _ _ _ Hi Hnd Hps Hpre Hid Hne)
    as (a & w' & snaps & Ha & Hprj & Hrun & N).
  pose proof (moved_stored items pre prj post a (statusOf this) w
                (conj Hi (conj Hnd Hps)) Ha) as Hst1.
  destruct (notified_stored _ _ _ _ _ _ Hst1 N) as (_ & _ & Hps').
  destruct N as [N1 _ _ _ _ _ _ _ _ N10 _].
  assert (Hlook : projectHeap w' !! a
                  = Some (Project.set_status prj (statusOf this))).
  { rewrite N1. unfold moved. simpl. apply list_lookup_insert_eq.
    now apply lookup_lt_Some in Hprj. }
  exists w', a. split; [exact Hrun|]. split; [exact Ha|].
  split; [exact Hlook|]. split.
  - rewrite (displays_projects this _ _ _ Hps' (N10 this (or_introl (Hreg this)))).
    apply keptOf_In. split.
    + apply list_elem_of_In. eapply list_elem_of_lookup_2. exact Ha.
    + unfold relevantAt. rewrite Hlook. now destruct this.
  - intros other Hother.
    rewrite (displays_projects other _ _ _ Hps'
               (N10 other (or_introl (Hreg other)))).
    rewrite keptOf_In. intros [_ Hrel].
    unfold relevantAt in Hrel. rewrite Hlook in Hrel.
    destruct this, other; simpl in Hrel; congruence.
Qed.

Lemma drop_moves_item_witness :
  exists w' a,
    dropHandler finished (str "0.5") oneProject = Some w'
    /\ In a (map project (listEl (finishedPrjList w')))
    /\ ~ In a (map project (listEl (activePrjList w'))).
Proof.
  destruct (drop_moves_item finished (str "0.5") oneProject [0%nat] []
              (Project.mk (str "0.5") (str "Build API")
                 (str "Design and build a REST API") (ofZ 3) Active) [])
    as (w' & a & H1 & _ & _ & H2 & H3).
  - reflexivity.
  - apply NoDup_singleton.
  - reflexivity.
  - intros []; simpl; auto.
  - constructor.
  - reflexivity.
  - discriminate.
  - exists w', a. split; [exact H1|]. split; [exact H2|].
    apply (H3 active). discriminate.
Defined.

(** ** A whole session *)

Lemma validFields_sameButStatus prj prj' :
  sameButStatus prj prj' -> validFields prj -> validFields prj'.
Proof.
  intros (_ & Ht & Hd & Hp). unfold validFields. now rewrite Ht, Hd, Hp.
Qed.

Lemma Forall_validFields_same ps ps' :
  Forall2 sameButStatus ps ps' -> Forall validFields ps -> Forall validFields ps'.
Proof.
  induction 1 as [|x y l l' Hxy _ IH]; intros H; [constructor|].
  inversion H; subst. constructor; [eapply validFields_sameButStatus; eauto|auto].
Qed.

Section Session.

Variable ToNumber : jsstring -> number.

(** One action from a state in which the lists are in step with the store
    and every project has fields the form accepts. *)
Lemma runAction_synced a w items ps :
  syncedWith items ps w ->
  Forall validFields ps ->
  exists w' items' ps',
    runAction ToNumber a w = Some w'
    /\ syncedWith items' ps' w'
    /\ Forall validFields ps'.
Proof.
  intros Hsync Hvalid.
  pose proof (syncedWith_stored _ _ _ Hsync) as Hst.
  destruct Hsync as (_ & _ & _ & Hreg & Hdis).
  destruct a as [t d n|random|this projId]; simpl.
  - exists (set_prjInput (mkInput t d n) w), items, ps.
    split; [reflexivity|]. split; [|exact Hvalid].
    destruct Hst as (Hi & Hnd & Hps).
    split; [exact Hi|]. split; [exact Hnd|]. split; [exact Hps|].
    split; [exact Hreg|]. intros this. specialize (Hdis this).
    destruct this; exact Hdis.
  - destruct (acceptable_dec (titleInputElement (prjInput w))
                (descriptionInputElement (prjInput w))
                (ToNumber (peopleInputElement (prjInput w)))) as [Hok|Hbad].
    + destruct (runOp_stored
                  (AddProject random (titleInputElement (prjInput w))
                     (descriptionInputElement (prjInput w))
                     (ToNumber (peopleInputElement (prjInput w)))) w items ps Hst)
        as (w1 & items1 & ps1 & Hrun & (Hi1 & Hnd1 & Hps1) & Hitems1 & Hsame
            & Hreg1 & Hdis1).
      simpl in Hrun.
      exists (clearInputs (clearInputs w1)), items1, ps1.
      split.
      { unfold submitHandler. rewrite (gatherUserInput_valid ToNumber w Hok).
        rewrite Hrun. reflexivity. }
      split.
      { split; [exact Hi1|]. split; [exact Hnd1|]. split; [exact Hps1|].
        split; [intros this; apply (Hreg1 this), Hreg|].
        intros this. specialize (Hdis1 Hreg Hdis this).
        destruct this; exact Hdis1. }
      assert (Hlen : length ps1 = S (length ps)).
      { apply readAll_length in Hps1. destruct Hst as (_ & _ & Hps).
        apply readAll_length in Hps. rewrite Hps1, Hitems1, length_app.
        simpl. lia. }
      pose proof (added_stored random (titleInputElement (prjInput w))
                    (descriptionInputElement (prjInput w))
                    (ToNumber (peopleInputElement (prjInput w))) items ps w Hst)
        as (_ & _ & Hps2).
      destruct (addProject_run random (titleInputElement (prjInput w))
                  (descriptionInputElement (prjInput w))
                  (ToNumber (peopleInputElement (prjInput w))) w items ps)
        as (w1' & snaps & Hrun' & [N1 _ _ _ _ _ _ _ _ _ _]);
        [apply Hst|apply Hst|].
      assert (w1' = w1) by congruence. subst w1'.
      simpl in Hitems1. rewrite Hitems1, N1, Hps2 in Hps1. injection Hps1 as <-.
      apply Forall_app. split; [exact Hvalid|].
      constructor; [exact Hok|constructor].
    + exists (clearInputs (emit (Alert (str "Invalid input, please try again")) w)),
        items, ps.
      split.
      { unfold submitHandler. rewrite (gatherUserInput_invalid ToNumber w Hbad).
        reflexivity. }
      split; [|exact Hvalid].
      destruct Hst as (Hi & Hnd & Hps).
      split; [exact Hi|]. split; [exact Hnd|]. split; [exact Hps|].
      split; [exact Hreg|]. intros this. specialize (Hdis this).
      destruct this; exact Hdis.
  - destruct (runOp_stored (MoveProject projId (statusOf this)) w items ps Hst)
      as (w1 & items1 & ps1 & Hrun & (Hi1 & Hnd1 & Hps1) & Hitems1 & Hsame
          & Hreg1 & Hdis1).
    simpl in Hrun. rewrite app_nil_r in Hitems1. subst items1.
    exists w1, items, ps1. split; [exact Hrun|].
    split.
    { split; [exact Hi1|]. split; [exact Hnd1|]. split; [exact Hps1|].
      split; [intros l; apply (Hreg1 l), Hreg|]. now apply Hdis1. }
    rewrite take_ge in Hsame.
    + eapply Forall_validFields_same; eauto.
    + apply readAll_length in Hps1. destruct Hst as (_ & _ & Hps).
      apply readAll_length in Hps. lia.
Qed.

Lemma runActions_synced acts :
  forall w items ps,
    syncedWith items ps w ->
    Forall validFields ps ->
    exists w' items' ps',
      runActions ToNumber acts w = Some w'
      /\ syncedWith items' ps' w'
      /\ Forall validFields ps'.
Proof.
  induction acts as [|a acts IH]; intros w items ps Hsync Hvalid.
  - exists w, items, ps. auto.
  - destruct (runAction_synced a w items ps Hsync Hvalid)
      as (w1 & items1 & ps1 & Hrun1 & Hsync1 & Hvalid1).
    destruct (IH w1 items1 ps1 Hsync1 Hvalid1)
      as (w2 & items2 & ps2 & Hrun2 & Hsync2 & Hvalid2).
    exists w2, items2, ps2. split; [|auto].
    simpl. rewrite Hrun1. exact Hrun2.
Qed.

(** Whatever the user does with the page (filling in fields, submitting,
    dropping on a list), every handler returns, every project on the board
    has a title and a description that are not blank, a description of more
    than five code units and a people count strictly between 1 and 5, and each
    list shows exactly the store's projects of its status. *)
Theorem session_keeps_board_valid acts :
  exists w' items ps,
    runActions ToNumber acts init = Some w'
    /\ arrayHeap w' !! projects w' = Some items
    /\ readProjects w' (projects w') = Some ps
    /\ Forall validFields ps
    /\ forall this, shows this items ps w'.
Proof.
  destruct (runActions_synced acts init [] [])
    as (w' & items & ps & Hrun & Hsync & Hvalid).
  - split; [reflexivity|]. split; [constructor|]. split; [reflexivity|].
    split; [apply registered_init|apply displays_init].
  - constructor.
  - pose proof (syncedWith_stored _ _ _ Hsync) as Hst.
    destruct Hsync as (Hi & _ & Hps & _ & Hdis).
    exists w', items, ps. split; [exact Hrun|]. split; [exact Hi|].
    split; [exact (stored_readProjects _ _ _ Hst)|]. split; [exact Hvalid|].
    intros this. now apply displays_shows.
Qed.

End Session.

(** ** The drag-and-drop handshake *)

Lemma find_filtered_out format data (l : list (jsstring * jsstring)) :
  List.find (fun e => jsstring_eqb (fst e) format)
    (List.filter (fun e => negb (jsstring_eqb (fst e) format)) l
     ++ [(format, data)])
  = Some (format, data).
Proof.
  induction l as [|e l IH]; simpl.
  - now rewrite jsstring_eqb_refl.
  - destruct (jsstring_eqb (fst e) format) eqn:E; simpl; [exact IH|].
    now rewrite E.
Qed.

(** What [setData] stored under a format is what [getData] reads back,
    whatever the transfer held before. *)
Lemma getData_setData format data dt :
  getData format (setData format data dt) = data.
Proof. unfold getData, setData. simpl. now rewrite find_filtered_out. Qed.

(** The handshake of a drag: the item writes the id of its project into the
    transfer and allows a move; a drop of that event on a list is
    [moveProject] with that id and the status of the list, whatever else the
    transfer held; and when the transfer was empty at the start of the drag,
    every list accepts the drag over it (it prevents the default and marks
    its [ul] droppable). *)
Theorem drag_carries_project_id item prj this event dt w :
  projectHeap w !! project item = Some prj ->
  dataTransfer event = Some dt ->
  exists event' dt',
    dragStartHandler (projectHeap w) item event = Some event'
    /\ dataTransfer event' = Some dt'
    /\ getData (str "text/plain") dt' = Project.id prj
    /\ effectAllowed dt' = str "move"
    /\ dropHandlerOn this event' w
       = moveProject (Project.id prj) (statusOf this) w
    /\ (dt_items dt = [] ->
        forall classes,
          dragOverHandler event' classes =
          (mkDragEvent (Some dt') true,
           classList_add (str "droppable") classes)).
Proof.
  intros Hprj Hdt.
  exists (mkDragEvent
            (Some (mkDataTransfer
                     (dt_items (setData (str "text/plain") (Project.id prj) dt))
                     (str "move")))
            (defaultPrevented event)).
  eexists. split.
  { unfold dragStartHandler. rewrite Hdt. simpl. rewrite Hprj. reflexivity. }
  split; [reflexivity|].
  assert (G : getData (str "text/plain")
                (mkDataTransfer
                   (dt_items (setData (str "text/plain") (Project.id prj) dt))
                   (str "move")) = Project.id prj).
  { unfold getData, setData. simpl dt_items. now rewrite find_filtered_out. }
  split; [exact G|]. split; [reflexivity|]. split.
  - unfold dropHandlerOn. cbn [dataTransfer mbind option_bind].
    now rewrite G.
  - intros Hempty classes. unfold dragOverHandler, types, setData.
    simpl. rewrite Hempty. reflexivity.
Qed.

Lemma drag_carries_project_id_witness :
  exists event',
    dragStartHandler (projectHeap oneProject)
      (mkItem 0%nat (str "Build API") (str "3 persons assigned")
         (str "Design and build a REST API"))
      (mkDragEvent (Some (mkDataTransfer [] [])) false) = Some event'
    /\ dropHandlerOn finished event' oneProject
       = moveProject (str "0.5") Finished oneProject.
Proof.
  destruct (drag_carries_project_id
              (mkItem 0%nat (str "Build API") (str "3 persons assigned")
                 (str "Design and build a REST API"))
              (Project.mk (str "0.5") (str "Build API")
                 (str "Design and build a REST API") (ofZ 3) Active)
              finished (mkDragEvent (Some (mkDataTransfer [] [])) false)
              (mkDataTransfer [] []) oneProject eq_refl eq_refl)
    as (event' & dt' & H1 & _ & _ & _ & H2 & _).
  exists event'. auto.
Defined.

Lemma classList_remove_absent token classes :
  ~ In token classes -> classList_remove token classes = classes.
Proof.
  induction classes as [|c classes IH]; intros Hnot; [reflexivity|].
  simpl. destruct (jsstring_eqb c token) eqn:E.
  - apply jsstring_eqb_eq in E. subst c. exfalso. apply Hnot. now left.
  - simpl. f_equal. apply IH. intros Hin. apply Hnot. now right.
Qed.

Lemma classList_add_present token classes :
  existsb (jsstring_eqb token) classes = true <-> In token classes.
Proof.
  rewrite existsb_exists. split.
  - intros (c & Hin & E). apply jsstring_eqb_eq in E. now subst c.
  - intros Hin. exists token. split; [exact Hin|apply jsstring_eqb_refl].
Qed.

Lemma classList_remove_add token classes :
  ~ In token classes ->
  classList_remove token (classList_add token classes) = classes.
Proof.
  intros Hnot. unfold classList_add.
  destruct (existsb (jsstring_eqb token) classes) eqn:E.
  - apply classList_add_present in E. contradiction.
  - unfold classList_remove. rewrite List.filter_app. simpl.
    rewrite jsstring_eqb_refl. simpl. rewrite app_nil_r.
    now apply classList_remove_absent.
Qed.

Lemma classList_add_twice token classes :
  classList_add token (classList_add token classes) = classList_add token classes.
Proof.
  unfold classList_add.
  destruct (existsb (jsstring_eqb token) classes) eqn:E.
  - now rewrite E.
  - rewrite existsb_app. simpl.
    now rewrite jsstring_eqb_refl, orb_true_r.
Qed.

(** The droppable mark: a drag over a list without a transfer, or whose
    first type is not plain text, is ignored (the event is not prevented, the
    classes stay); a drag over never removes a class and repeated it adds
    nothing more; and a drag leave after a drag over gives back the classes
    the [ul] had, when it was not marked before. *)
Theorem droppable_mark_round_trip event classes :
  (dataTransfer event = None -> dragOverHandler event classes = (event, classes))
  /\ (forall dt, dataTransfer event = Some dt ->
                 head (types dt) <> Some (str "text/plain") ->
                 dragOverHandler event classes = (event, classes))
  /\ (forall c, In c classes -> In c (snd (dragOverHandler event classes)))
  /\ snd (dragOverHandler (fst (dragOverHandler event classes))
            (snd (dragOverHandler event classes)))
     = snd (dragOverHandler event classes)
  /\ (~ In (str "droppable") classes ->
      dragLeaveHandler (snd (dragOverHandler event classes)) = classes).
Proof.
  unfold dragOverHandler, dragLeaveHandler.
  split; [now intros ->|]. split.
  { intros dt -> Hhead. destruct (types dt) as [|first rest]; [reflexivity|].
    destruct (jsstring_eqb first (str "text/plain")) eqn:E; [|reflexivity].
    apply jsstring_eqb_eq in E. subst first. now contradiction Hhead. }
  destruct (dataTransfer event) as [dt|] eqn:Hdt; simpl;
    [|rewrite Hdt; repeat split; auto using classList_remove_absent].
  destruct (types dt) as [|first rest] eqn:Ht; simpl;
    [rewrite Hdt, Ht; repeat split; auto using classList_remove_absent|].
  destruct (jsstring_eqb first (str "text/plain")) eqn:E; simpl;
    [|rewrite Hdt, Ht, E; repeat split; auto using classList_remove_absent].
  rewrite Ht, E. simpl. split; [|split].
  - intros c Hin. unfold classList_add.
    destruct (existsb _ classes); [exact Hin|]. apply in_or_app. now left.
  - apply classList_add_twice.
  - apply classList_remove_add.
Qed.

(** ** Mounting the views *)

Lemma filter_other_idem (element : nat) (l : list nat) :
  List.filter (fun e => negb (Nat.eqb e element))
    (List.filter (fun e => negb (Nat.eqb e element)) l)
  = List.filter (fun e => negb (Nat.eqb e element)) l.
Proof.
  induction l as [|x l IH]; simpl; [reflexivity|].
  destruct (Nat.eqb x element) eqn:E; simpl; [exact IH|].
  rewrite E. simpl. now rewrite IH.
Qed.

Lemma filter_other_fresh (element : nat) (l : list nat) :
  ~ In element l ->
  List.filter (fun e => negb (Nat.eqb e element)) l = l.
Proof.
  induction l as [|x l IH]; intros Hnot; [reflexivity|]. simpl.
  destruct (Nat.eqb_spec x element) as [->|Hne]; simpl.
  - exfalso. apply Hnot. now left.
  - f_equal. apply IH. intros Hin. apply Hnot. now right.
Qed.

Lemma attach_again element hostChildren :
  attach false element (attach false element hostChildren)
  = attach false element hostChildren.
Proof.
  unfold attach. rewrite List.filter_app. simpl. rewrite Nat.eqb_refl. simpl.
  now rewrite app_nil_r, filter_other_idem.
Qed.

(** [attach] puts the element among the children of the host exactly once,
    first or last as asked, and leaves the other children as they were, in
    their order; attaching at the end a second time, as the constructor of
    [ProjectList] does, changes nothing. *)
Theorem attach_places_element_once insertAtBeginning element hostChildren :
  count_occ Nat.eq_dec (attach insertAtBeginning element hostChildren) element
  = 1%nat
  /\ List.filter (fun e => negb (Nat.eqb e element))
       (attach insertAtBeginning element hostChildren)
     = List.filter (fun e => negb (Nat.eqb e element)) hostChildren
  /\ (insertAtBeginning = true ->
      head (attach insertAtBeginning element hostChildren) = Some element)
  /\ (insertAtBeginning = false ->
      last (attach insertAtBeginning element hostChildren) = Some element)
  /\ attach false element (attach false element hostChildren)
     = attach false element hostChildren.
Proof.
  assert (C : count_occ Nat.eq_dec
                (List.filter (fun e => negb (Nat.eqb e element)) hostChildren)
                element = 0%nat).
  { apply count_occ_not_In. rewrite filter_In. intros [_ H].
    now rewrite Nat.eqb_refl in H. }
  unfold attach. split; [|split; [|split; [|split]]].
  - destruct insertAtBeginning.
    + simpl. destruct (Nat.eq_dec element element); [|contradiction]. now rewrite C.
    + rewrite count_occ_app, C. simpl.
      now destruct (Nat.eq_dec element element).
  - destruct insertAtBeginning.
    + simpl. rewrite Nat.eqb_refl. simpl. apply filter_other_idem.
    + rewrite List.filter_app. simpl. rewrite Nat.eqb_refl. simpl.
      rewrite app_nil_r. apply filter_other_idem.
  - now intros ->.
  - intros ->. apply last_snoc.
  - fold (attach false element hostChildren). apply attach_again.
Qed.

(** Once the three views are made, the form is the first child of the host
    and the two lists are the last ones, the active list before the finished
    one, around the children the host had; each view is there once. *)
Theorem mountViews_order prjInputEl activeEl finishedEl hostChildren :
  NoDup [prjInputEl; activeEl; finishedEl] ->
  ~ In prjInputEl hostChildren ->
  ~ In activeEl hostChildren ->
  ~ In finishedEl hostChildren ->
  mountViews prjInputEl activeEl finishedEl hostChildren
  = prjInputEl :: hostChildren ++ [activeEl; finishedEl].
Proof.
  intros Hnd Hi Ha Hf.
  apply NoDup_cons in Hnd as [Hia Hnd]. apply NoDup_cons in Hnd as [Haf _].
  apply not_elem_of_cons in Hia as [Hia Hif].
  apply not_elem_of_cons in Hif as [Hif _].
  apply not_elem_of_cons in Haf as [Haf _].
  unfold mountViews.
  rewrite !attach_again. unfold attach.
  rewrite (filter_other_fresh prjInputEl hostChildren Hi).
  rewrite (filter_other_fresh activeEl (prjInputEl :: hostChildren)).
  2:{ intros [H|H]; [congruence|contradiction]. }
  rewrite (filter_other_fresh finishedEl ((prjInputEl :: hostChildren) ++ [activeEl])).
  2:{ intros H. apply in_app_or in H as [[H|H]|[H|[]]];
        [congruence|contradiction|congruence]. }
  simpl. now rewrite <- app_assoc.
Qed.

Lemma mountViews_order_witness :
  mountViews 1 2 3 [0%nat] = [1; 0; 2; 3]%nat.
Proof.
  apply (mountViews_order 1 2 3 [0%nat]).
  - repeat (apply NoDup_cons; split;
            [rewrite ?not_elem_of_cons; repeat split;
             try discriminate; apply not_elem_of_nil|]).
    apply NoDup_nil_2.
  - intros [H|[]]. discriminate.
  - intros [H|[]]. discriminate.
  - intros [H|[]]. discriminate.
Defined.

(** ** The form after a submit *)


